(** * payapp-react: the webhook feedback processor and the API caller

    A shallow embedding of [src/lib/client.ts] and [src/lib/webhook.ts].

    TypeScript interfaces are erased at run time, so the embedding works
    with the values the JavaScript code really handles: a feedback record
    is a plain object (a finite map from property names to values), a
    thrown value is any value, a promise either fulfils or rejects. *)

From Stdlib Require Import ZArith Ascii String.
From stdpp Require Import base gmap sets list strings pretty.

Local Open Scope Z_scope.
Local Open Scope string_scope.

(** ** JavaScript values *)

(** The primitive values that occur in the fields of the records of this
    library.  [JsNumber n] is the Number whose value is the integer [n];
    the embedding follows its [String(n)] for the integers that a Number
    holds exactly, those of magnitude at most 2^53, which covers every
    provider code and amount.  A string is a well-formed string, given
    by its UTF-8 bytes. *)
Inductive JsValue : Type :=
  | JsUndefined
  | JsNull
  | JsString (s : string)
  | JsNumber (n : Z).

#[global] Instance JsValue_eq_dec : EqDecision JsValue.
Proof. solve_decision. Defined.

(** [a === b] on primitives. *)
Definition strict_eq (a b : JsValue) : bool := bool_decide (a = b).

(** [String(v)], also the conversion of a template literal hole. *)
Definition ToString (v : JsValue) : string :=
  match v with
  | JsUndefined => "undefined"
  | JsNull => "null"
  | JsString s => s
  | JsNumber n => pretty n
  end.

Definition ToBoolean (v : JsValue) : bool :=
  match v with
  | JsUndefined | JsNull => false
  | JsString s => negb (bool_decide (s = ""))
  | JsNumber n => negb (bool_decide (n = 0))
  end.

(** [a || b]. *)
Definition js_or (a b : JsValue) : JsValue := if ToBoolean a then a else b.

(** Property read [o.k]: an absent property reads as [undefined]. *)
Definition prop (o : gmap string JsValue) (k : string) : JsValue :=
  default JsUndefined (o !! k).

(** ** Types of [src/types/index.ts] *)

Record PayAppCredentials : Type := {
  userid : string;
  linkkey : string;
  linkval : string;
}.

(** [PaymentFeedback]: the object the provider posts.  Declared with
    [userid], [linkkey], [linkval], [mul_no] as strings, [pay_state] as a
    number and [var1], [var2] optional. *)
Abbreviation PaymentFeedback := (gmap string JsValue).

(** ** Webhook helpers of [src/lib/client.ts] *)

Definition validateFeedback (feedback : PaymentFeedback)
    (credentials : PayAppCredentials) : bool :=
  strict_eq (prop feedback "userid") (JsString (userid credentials)) &&
  strict_eq (prop feedback "linkkey") (JsString (linkkey credentials)) &&
  strict_eq (prop feedback "linkval") (JsString (linkval credentials)).

Definition generateFeedbackKey (feedback : PaymentFeedback) : string :=
  ToString (prop feedback "mul_no") +:+ "_" +:+
  ToString (prop feedback "pay_state") +:+ "_" +:+
  ToString (js_or (prop feedback "var1") (JsString "")) +:+ "_" +:+
  ToString (js_or (prop feedback "var2") (JsString "")).

Definition isPaymentCompleted (feedback : PaymentFeedback) : bool :=
  strict_eq (prop feedback "pay_state") (JsNumber 4).

Definition isPaymentCancelled (feedback : PaymentFeedback) : bool :=
  existsb (fun c => strict_eq c (prop feedback "pay_state"))
    (map JsNumber [8; 9; 32; 64; 70; 71]).

(** ** [src/lib/webhook.ts]: event classification *)

Inductive WebhookEventType : Type :=
  | payment_requested
  | payment_completed
  | payment_cancelled
  | payment_waiting
  | payment_unknown.

#[global] Instance WebhookEventType_eq_dec : EqDecision WebhookEventType.
Proof. solve_decision. Defined.

(** The [switch] compares with [===], so only a number matches a case. *)
Definition getEventType (feedback : PaymentFeedback) : WebhookEventType :=
  match prop feedback "pay_state" with
  | JsNumber 1 => payment_requested
  | JsNumber 4 => payment_completed
  | JsNumber 8 | JsNumber 9 | JsNumber 32
  | JsNumber 64 | JsNumber 70 | JsNumber 71 => payment_cancelled
  | JsNumber 10 => payment_waiting
  | _ => payment_unknown
  end.

(** ** Exceptions and promises *)

(** An instance of [Error].  [code], [state] and [errorMessage] are the
    extra properties of [PayAppError]; [None] is an absent property. *)
Record JsError : Type := {
  message : string;
  code : option string;
  state : option string;
  errorMessage : option string;
}.

Definition new_Error (msg : string) : JsError :=
  {| message := msg; code := None; state := None; errorMessage := None |}.

(** Anything can be thrown: an [Error] instance or another value. *)
Inductive Exception : Type :=
  | ErrorObject (e : JsError)
  | NonError (v : JsValue).

(** The settled state of an awaited promise. *)
Inductive Completion (A : Type) : Type :=
  | Fulfilled (a : A)
  | Rejected (e : Exception).
Arguments Fulfilled {A} a.
Arguments Rejected {A} e.

(** [error instanceof Error ? error : new Error('Unknown error')] *)
Definition as_Error (error : Exception) : JsError :=
  match error with
  | ErrorObject e => e
  | NonError _ => new_Error "Unknown error"
  end.

(** ** Form codec: [URLSearchParams]

    The platform class, following the application/x-www-form-urlencoded
    serializer and parser of the URL standard.  A string stands for the
    sequence of its UTF-8 bytes, so the UTF-8 encode step of the
    serializer is the identity here; the parser decodes the bytes it
    reads, which need not be well-formed, with [utf8_decode]. *)

Definition hex_digit (n : N) : ascii :=
  match n with
  | 0 => "0" | 1 => "1" | 2 => "2" | 3 => "3" | 4 => "4" | 5 => "5"
  | 6 => "6" | 7 => "7" | 8 => "8" | 9 => "9" | 10 => "A" | 11 => "B"
  | 12 => "C" | 13 => "D" | 14 => "E" | _ => "F"
  end%char%N.

Definition hex_value (c : ascii) : option N :=
  let n := N_of_ascii c in
  if (48 <=? n)%N && (n <=? 57)%N then Some (n - 48)%N
  else if (65 <=? n)%N && (n <=? 70)%N then Some (n - 55)%N
  else if (97 <=? n)%N && (n <=? 102)%N then Some (n - 87)%N
  else None.

(** Bytes outside the urlencoded percent-encode set: ASCII alphanumerics
    and [*], [-], [.], [_]. *)
Definition urlencoded_safe (c : ascii) : bool :=
  let n := N_of_ascii c in
  ((48 <=? n)%N && (n <=? 57)%N) || ((65 <=? n)%N && (n <=? 90)%N) ||
  ((97 <=? n)%N && (n <=? 122)%N) ||
  (n =? 42)%N || (n =? 45)%N || (n =? 46)%N || (n =? 95)%N.

Definition urlencode_byte (c : ascii) : string :=
  if urlencoded_safe c then String c ""
  else if (N_of_ascii c =? 32)%N then "+"
  else String "%" (String (hex_digit (N_of_ascii c / 16))
                   (String (hex_digit (N_of_ascii c mod 16)) "")).

Fixpoint urlencode (s : string) : string :=
  match s with
  | "" => ""
  | String c r => urlencode_byte c +:+ urlencode r
  end.

Fixpoint join_amp (l : list string) : string :=
  match l with
  | [] => ""
  | [x] => x
  | x :: r => x +:+ "&" +:+ join_amp r
  end.

(** [params.toString()] *)
Definition URLSearchParams_toString (params : list (string * string)) : string :=
  join_amp (map (fun kv => urlencode kv.1 +:+ "=" +:+ urlencode kv.2) params).

Fixpoint split_on (sep : ascii) (s : string) : list string :=
  match s with
  | "" => [""]
  | String c r =>
      if decide (c = sep) then "" :: split_on sep r
      else match split_on sep r with
           | x :: xs => String c x :: xs
           | [] => [String c ""]
           end
  end.

(** The part before the first [sep] and the part after it. *)
Fixpoint break_at (sep : ascii) (s : string) : option (string * string) :=
  match s with
  | "" => None
  | String c r =>
      if decide (c = sep) then Some ("", r)
      else match break_at sep r with
           | Some (a, b) => Some (String c a, b)
           | None => None
           end
  end.

Fixpoint plus_to_space (s : string) : string :=
  match s with
  | "" => ""
  | String c r =>
      String (if decide (c = "+"%char) then " "%char else c) (plus_to_space r)
  end.

Fixpoint percent_decode (s : string) : string :=
  match s with
  | "" => ""
  | String c r =>
      if decide (c = "%"%char) then
        match r with
        | String h (String l r') =>
            match hex_value h, hex_value l with
            | Some a, Some b =>
                String (ascii_of_N (16 * a + b)) (percent_decode r')
            | _, _ => String c (percent_decode r)
            end
        | _ => String c (percent_decode r)
        end
      else String c (percent_decode r)
  end.

(** The bytes of a name or value: [+] read as a space, then the
    percent escapes. *)
Definition form_unescape (s : string) : string :=
  percent_decode (plus_to_space s).

(** U+FFFD, the replacement character. *)
Definition REPLACEMENT : string :=
  String (ascii_of_N 239) (String (ascii_of_N 191) (String (ascii_of_N 189) "")).

(** For the first byte of a sequence of several bytes: how many bytes
    follow and the range the next one must lie in. *)
Definition utf8_lead (b : N) : option (nat * N * N) :=
  if ((194 <=? b) && (b <=? 223))%N then Some (1%nat, 128, 191)%N
  else if (b =? 224)%N then Some (2%nat, 160, 191)%N
  else if (b =? 237)%N then Some (2%nat, 128, 159)%N
  else if ((225 <=? b) && (b <=? 239))%N then Some (2%nat, 128, 191)%N
  else if (b =? 240)%N then Some (3%nat, 144, 191)%N
  else if (b =? 244)%N then Some (3%nat, 128, 143)%N
  else if ((241 <=? b) && (b <=? 243))%N then Some (3%nat, 128, 191)%N
  else None.

(** The UTF-8 decoder of the Encoding standard, as it acts on the bytes:
    a well-formed sequence is kept and every ill-formed piece becomes
    U+FFFD.  [needed] bytes are still to come for the sequence whose
    bytes so far are [pending], the next within [lower] and [upper]. *)
Fixpoint utf8_go (s : string) (needed : nat) (lower upper : N)
    (pending : string) : string :=
  match s with
  | "" =>
      match needed with
      | O => ""
      | S _ => REPLACEMENT
      end
  | String c r =>
      let b := N_of_ascii c in
      let fresh :=
        if (b <? 128)%N then String c (utf8_go r 0 128 191 "")
        else
          match utf8_lead b with
          | Some (n, lo, hi) => utf8_go r n lo hi (String c "")
          | None => REPLACEMENT +:+ utf8_go r 0 128 191 ""
          end in
      match needed with
      | O => fresh
      | S m =>
          if ((lower <=? b) && (b <=? upper))%N then
            match m with
            | O => pending +:+ String c (utf8_go r 0 128 191 "")
            | S _ => utf8_go r m 128 191 (pending +:+ String c "")
            end
          else REPLACEMENT +:+ fresh
      end
  end.

(** [UTF-8 decode without BOM] *)
Definition utf8_decode (s : string) : string := utf8_go s 0 128 191 "".

Definition urldecode (s : string) : string := utf8_decode (form_unescape s).

Definition parse_pair (bytes : string) : string * string :=
  match break_at "="%char bytes with
  | Some (name, value) => (urldecode name, urldecode value)
  | None => (urldecode bytes, "")
  end.

Definition urlencoded_parse (input : string) : list (string * string) :=
  map parse_pair
    (filter (fun bytes => bytes ≠ "") (split_on "&"%char input)).

(** [new URLSearchParams(init)] for a string: one leading [?] is dropped. *)
Definition new_URLSearchParams (init : string) : list (string * string) :=
  match init with
  | String "?" r => urlencoded_parse r
  | _ => urlencoded_parse init
  end.

(** [result[key] = value] on an object literal, for a string [value]:
    the name [__proto__] reaches the setter of [Object.prototype], which
    ignores a string, so no property is made; any other name becomes an
    own property. *)
Definition js_assign (result : gmap string string) (key value : string)
    : gmap string string :=
  if bool_decide (key = "__proto__") then result else <[key := value]> result.

(** [params.forEach((value, key) => { result[key] = value; })] on a fresh
    object: a later pair with the same name overwrites an earlier one. *)
Definition collect (params : list (string * string)) : gmap string string :=
  fold_left (fun result kv => js_assign result kv.1 kv.2) params ∅.

#[global] Instance Completion_ret : MRet Completion := fun _ a => Fulfilled a.
#[global] Instance Completion_bind : MBind Completion := fun _ _ k m =>
  match m with
  | Fulfilled a => k a
  | Rejected e => Rejected e
  end.

(** [try { m } catch (error) { handler }] *)
Definition try_catch {A} (m : Completion A)
    (handler : Exception -> Completion A) : Completion A :=
  match m with
  | Fulfilled a => Fulfilled a
  | Rejected error => handler error
  end.

(** ** [PayAppClient] of [src/lib/client.ts] *)

Definition PAYAPP_API_URL : string := "https://api.payapp.kr/oapi/apiLoad.html".

Record PayAppConfig : Type := {
  apiUrl : string;
  config_credentials : PayAppCredentials;
  isProduction : bool;
}.

Definition new_PayAppClient (credentials : PayAppCredentials)
    (isProduction : bool) : PayAppConfig :=
  {| apiUrl := PAYAPP_API_URL;
     config_credentials := credentials;
     isProduction := isProduction |}.

(** The second argument of [fetch] and the response it resolves to;
    [response_text] is the outcome of [await response.text()]. *)
Record FetchInit : Type := {
  init_method : string;
  init_content_type : string;
  init_body : string;
}.

#[global] Instance FetchInit_eq_dec : EqDecision FetchInit.
Proof. solve_decision. Defined.

Record FetchResponse : Type := {
  ok : bool;
  response_status : Z;
  response_text : Completion string;
}.

Definition createError (message code : string) : JsError :=
  {| message := message;
     code := Some code;
     state := Some "0";
     errorMessage := Some message |}.

Definition parseResponse (text : string) : gmap string string :=
  collect (new_URLSearchParams text).

(** [s || d] for an optional string property. *)
Definition or_default (s : option string) (d : string) : string :=
  match s with
  | Some m => if decide (m = "") then d else m
  | None => d
  end.

(** The callback of the [forEach] in [callAPI]:
    [if (value !== undefined && value !== null) formData.append(key, String(value))] *)
Definition append_param (formData : list (string * string))
    (kv : string * JsValue) : list (string * string) :=
  match kv.2 with
  | JsUndefined | JsNull => formData
  | value => (formData ++ [(kv.1, ToString value)])%list
  end.

Section Client.

(** [Object.entries]: the own properties in the engine's property order,
    whatever that order is. *)
Variable entries : gmap string JsValue -> list (string * JsValue).

(** The transport: what [fetch(url, init)] settles to. *)
Variable fetch : string -> FetchInit -> Completion FetchResponse.

(** The [URLSearchParams] filled by the loop at the head of [callAPI]. *)
Definition formData (params : gmap string JsValue) : list (string * string) :=
  fold_left append_param (entries params) [].

Definition callAPI (this : PayAppConfig) (params : gmap string JsValue)
    : Completion (gmap string string) :=
  try_catch
    (response ← fetch (apiUrl this)
       {| init_method := "POST";
          init_content_type := "application/x-www-form-urlencoded";
          init_body := URLSearchParams_toString (formData params) |};
     if negb (ok response) then
       Rejected (ErrorObject
         (createError
            ("HTTP error! status: " +:+ pretty (response_status response))
            (pretty (response_status response))))
     else
       text ← response_text response;
       let result := parseResponse text in
       if bool_decide (result !! "state" = Some "0") then
         Rejected (ErrorObject
           (createError
              (or_default (result !! "errorMessage") "PayApp API error") "0"))
       else mret result)
    (fun error =>
       match error with
       | ErrorObject e =>
           if bool_decide (is_Some (code e)) then Rejected error
           else Rejected (ErrorObject (createError (message e) "UNKNOWN"))
       | NonError _ =>
           Rejected (ErrorObject (createError "Unknown error" "UNKNOWN"))
       end).

(** Object literal [{ k1: v1, ..., ...params }]: the spread comes last, so
    the caller's fields override the fixed ones. *)
Definition requestPayment (this : PayAppConfig) (params : gmap string JsValue)
    : Completion (gmap string string) :=
  callAPI this
    (params ∪
     <["cmd" := JsString "payrequest"]>
       (<["userid" := JsString (userid (config_credentials this))]> ∅)).

Definition cancelPayment (this : PayAppConfig) (params : gmap string JsValue)
    : Completion (gmap string string) :=
  callAPI this
    (params ∪
     <["cmd" := JsString "paycancel"]>
       (<["userid" := JsString (userid (config_credentials this))]>
          (<["linkkey" := JsString (linkkey (config_credentials this))]> ∅))).

End Client.

(** ** [PayAppWebhookProcessor] of [src/lib/webhook.ts] *)

Inductive ProcessResult : Type := SUCCESS | ERROR.

Definition result_text (r : ProcessResult) : string :=
  match r with
  | SUCCESS => "SUCCESS"
  | ERROR => "ERROR"
  end.

(** The event callbacks of [WebhookHandler]. *)
Inductive Callback : Type :=
  | OnPaymentRequested
  | OnPaymentCompleted
  | OnPaymentCancelled
  | OnPaymentWaiting.

(** What a run does to the outside, in order: the callbacks it calls
    and the lines it logs. *)
Inductive Effect : Type :=
  | Invoke (cb : Callback) (feedback : PaymentFeedback)
  | InvokeOnError (error : JsError) (feedback : option PaymentFeedback)
  | ConsoleWarn (msg : string) (arg : JsValue)
  | ConsoleError (msg : string) (error : Exception).

Record PayAppWebhookProcessor : Type := {
  credentials : PayAppCredentials;
  processedKeys : gset string;
}.

Definition new_PayAppWebhookProcessor (credentials : PayAppCredentials)
    : PayAppWebhookProcessor :=
  {| credentials := credentials; processedKeys := ∅ |}.

(** The cast [body as unknown as PaymentFeedback] changes nothing at run
    time: every field of the feedback is the string that was posted. *)
Definition parseWebhookRequest (body : gmap string string) : PaymentFeedback :=
  JsString <$> body.

Definition validate (this : PayAppWebhookProcessor)
    (feedback : PaymentFeedback) : bool :=
  validateFeedback feedback (credentials this).

Definition isDuplicate (this : PayAppWebhookProcessor)
    (feedback : PaymentFeedback) : bool :=
  let key := generateFeedbackKey feedback in
  bool_decide (key ∈ processedKeys this).

Definition markAsProcessed (this : PayAppWebhookProcessor)
    (feedback : PaymentFeedback) : PayAppWebhookProcessor :=
  let key := generateFeedbackKey feedback in
  {| credentials := credentials this;
     processedKeys := {[key]} ∪ processedKeys this |}.

Definition clearProcessedKeys (this : PayAppWebhookProcessor)
    : PayAppWebhookProcessor :=
  {| credentials := credentials this; processedKeys := ∅ |}.

Section Processor.

(** The state of the host application, which the callbacks read and
    write.  The callbacks are host code: they run to completion, fulfil or
    reject, and do not call back into the processor. *)
Context {W : Type}.

Record WebhookHandler : Type := {
  onPaymentRequested : option (PaymentFeedback -> W -> W * Completion unit);
  onPaymentCompleted : option (PaymentFeedback -> W -> W * Completion unit);
  onPaymentCancelled : option (PaymentFeedback -> W -> W * Completion unit);
  onPaymentWaiting : option (PaymentFeedback -> W -> W * Completion unit);
  onError :
    option (JsError -> option PaymentFeedback -> W -> W * Completion unit);
}.

(** The processor object, the host state and the effects so far. *)
Record Heap : Type := {
  this : PayAppWebhookProcessor;
  world : W;
  trace : list Effect;
}.

(** An [async] function body: it transforms the heap and settles. *)
Definition Async (A : Type) : Type := Heap -> Heap * Completion A.

(** [return a] *)
Definition resolve {A} (a : A) : Async A := fun h => (h, Fulfilled a).

#[global] Instance Async_ret : MRet Async := @resolve.
#[global] Instance Async_bind : MBind Async := fun _ _ k m h =>
  match m h with
  | (h', Fulfilled a) => k a h'
  | (h', Rejected e) => (h', Rejected e)
  end.

Definition throw {A} (e : Exception) : Async A := fun h => (h, Rejected e).

(** [await p] for a promise of the platform that settles to [c]. *)
Definition await {A} (c : Completion A) : Async A := fun h => (h, c).

Definition try_catch_async {A} (m : Async A) (handler : Exception -> Async A)
    : Async A := fun h =>
  match m h with
  | (h', Fulfilled a) => (h', Fulfilled a)
  | (h', Rejected error) => handler error h'
  end.

Definition emit (e : Effect) : Async unit := fun h =>
  ({| this := this h; world := world h; trace := (trace h ++ [e])%list |},
   Fulfilled tt).

(** A method call on the processor that only reads it. *)
Definition read {A} (method : PayAppWebhookProcessor -> A) : Async A :=
  fun h => (h, Fulfilled (method (this h))).

(** A method call on the processor that updates it. *)
Definition update (method : PayAppWebhookProcessor -> PayAppWebhookProcessor)
    : Async unit := fun h =>
  ({| this := method (this h); world := world h; trace := trace h |},
   Fulfilled tt).

(** [await callback(...)]: the call is recorded, then the callback runs on
    the host state. *)
Definition await_callback (e : Effect) (callback : W -> W * Completion unit)
    : Async unit := fun h =>
  let (w, r) := callback (world h) in
  ({| this := this h; world := w; trace := (trace h ++ [e])%list |}, r).

(** [if (handlers.cb) { await handlers.cb(feedback); }] *)
Definition dispatch (cb : Callback)
    (registered : option (PaymentFeedback -> W -> W * Completion unit))
    (feedback : PaymentFeedback) : Async unit :=
  match registered with
  | Some callback => await_callback (Invoke cb feedback) (callback feedback)
  | None => resolve tt
  end.

(** [if (handlers.onError) { await handlers.onError(error, feedback); }] *)
Definition report (handlers : WebhookHandler) (error : Exception)
    (feedback : option PaymentFeedback) : Async unit :=
  match onError handlers with
  | Some callback =>
      await_callback (InvokeOnError (as_Error error) feedback)
        (callback (as_Error error) feedback)
  | None => resolve tt
  end.

(** The [catch] block of [process]. *)
Definition process_catch (feedback : PaymentFeedback)
    (handlers : WebhookHandler) (error : Exception) : Async ProcessResult :=
  emit (ConsoleError "Webhook processing error:" error);;
  report handlers error (Some feedback);;
  resolve ERROR.

Definition process (feedback : PaymentFeedback) (handlers : WebhookHandler)
    : Async ProcessResult :=
  try_catch_async
    (valid ← read (fun this => validate this feedback);
     if negb valid then
       throw (ErrorObject (new_Error "Invalid webhook credentials"))
     else
       duplicate ← read (fun this => isDuplicate this feedback);
       if (duplicate : bool) then
         emit (ConsoleWarn "Duplicate webhook detected:"
                 (JsString (generateFeedbackKey feedback)));;
         resolve SUCCESS
       else
         let eventType := getEventType feedback in
         match eventType with
         | payment_requested =>
             dispatch OnPaymentRequested (onPaymentRequested handlers) feedback
         | payment_completed =>
             dispatch OnPaymentCompleted (onPaymentCompleted handlers) feedback
         | payment_cancelled =>
             dispatch OnPaymentCancelled (onPaymentCancelled handlers) feedback
         | payment_waiting =>
             dispatch OnPaymentWaiting (onPaymentWaiting handlers) feedback
         | payment_unknown =>
             emit (ConsoleWarn "Unknown payment state:"
                     (prop feedback "pay_state"))
         end;;
         update (fun this => markAsProcessed this feedback);;
         resolve SUCCESS)
    (process_catch feedback handlers).

(** ** [createWebhookHandler] *)

(** The parts of a [Request] the handler looks at: the method, the result
    of [headers.get('content-type')] ([None] for [null]) and what
    [await req.text()] settles to.  A [Response] made from a string with
    no headers of its own gets the content type
    [text/plain;charset=UTF-8]. *)
Record Request : Type := {
  method : string;
  content_type : option string;
  text : Completion string;
}.

Record Response : Type := {
  body : string;
  status : Z;
  response_content_type : option string;
}.

(** [s.includes(t)] *)
Fixpoint includes (s t : string) : bool :=
  String.prefix t s ||
  match s with
  | "" => false
  | String _ r => includes r t
  end.

(** The [catch] block of the request handler. *)
Definition webhook_catch (handlers : WebhookHandler) (error : Exception)
    : Async Response :=
  emit (ConsoleError "Webhook handler error:" error);;
  report handlers error None;;
  resolve {| body := "ERROR"; status := 200;
             response_content_type := Some "text/plain" |}.

(** The body of the function that [createWebhookHandler] returns; the
    processor it closes over is the one on the heap. *)
Definition webhookHandler (handlers : WebhookHandler) (req : Request)
    : Async Response :=
  try_catch_async
    (if negb (bool_decide (method req = "POST")) then
       resolve {| body := "Method not allowed"; status := 405;
                  response_content_type := Some "text/plain;charset=UTF-8" |}
     else
       let contentType := content_type req in
       if negb (from_option
                  (fun s => includes s "application/x-www-form-urlencoded")
                  false contentType) then
         resolve {| body := "Invalid content type"; status := 400;
                    response_content_type :=
                      Some "text/plain;charset=UTF-8" |}
       else
         text ← await (text req);
         let params := new_URLSearchParams text in
         let body := collect params in
         let feedback := parseWebhookRequest body in
         result ← process feedback handlers;
         resolve {| body := result_text result; status := 200;
                    response_content_type := Some "text/plain" |})
    (webhook_catch handlers).

(** [createWebhookHandler(credentials, handlers)]: the processor it
    allocates and the request handler it returns. *)
Definition createWebhookHandler (credentials : PayAppCredentials)
    (handlers : WebhookHandler)
    : PayAppWebhookProcessor * (Request -> Async Response) :=
  let processor := new_PayAppWebhookProcessor credentials in
  (processor, webhookHandler handlers).

End Processor.

(** ** Vocabulary of the statements *)

(** The character [c] occurs in [s]. *)
Fixpoint occurs (c : ascii) (s : string) : bool :=
  match s with
  | "" => false
  | String d r => bool_decide (d = c) || occurs c r
  end.







(** The thrown value is an [Error] that has a [code] property. *)
Definition coded (x : Exception) : Prop :=
  ∃ e c, x = ErrorObject e /\ code e = Some c.

Section Vocabulary.

Context {W : Type}.

(** The callback that [process] dispatches to for an event type, when one
    is registered: "the matching handler". *)
Definition handler_for (handlers : @WebhookHandler W) (ev : WebhookEventType)
    : option (Callback * (PaymentFeedback -> W -> W * Completion unit)) :=
  match ev with
  | payment_requested => pair OnPaymentRequested <$> onPaymentRequested handlers
  | payment_completed => pair OnPaymentCompleted <$> onPaymentCompleted handlers
  | payment_cancelled => pair OnPaymentCancelled <$> onPaymentCancelled handlers
  | payment_waiting => pair OnPaymentWaiting <$> onPaymentWaiting handlers
  | payment_unknown => None
  end.

(** The effects that happened between heap [h] and the later heap [h']. *)
Definition since (h h' : @Heap W) : list Effect :=
  drop (length (trace h)) (trace h').

(** The event callbacks called in a stretch of effects, in order. *)
Definition invocations (effects : list Effect) : list Callback :=
  omap (fun e => match e with Invoke cb _ => Some cb | _ => None end) effects.

(** The calls of [onError] in a stretch of effects, in order. *)
Definition error_reports (effects : list Effect)
    : list (JsError * option PaymentFeedback) :=
  omap (fun e => match e with
                 | InvokeOnError error feedback => Some (error, feedback)
                 | _ => None
                 end) effects.

(** [onError] is unregistered or is a callback that never rejects. *)
Definition onError_quiet (handlers : @WebhookHandler W) : Prop :=
  ∀ callback error feedback w,
    onError handlers = Some callback ->
    ∃ w', callback error feedback w = (w', Fulfilled tt).

(** The public methods of the processor, as calls. *)
Inductive Method : Type :=
  | ParseWebhookRequest (body : gmap string string)
  | Validate (feedback : PaymentFeedback)
  | IsDuplicate (feedback : PaymentFeedback)
  | MarkAsProcessed (feedback : PaymentFeedback)
  | ClearProcessedKeys
  | GetEventType (feedback : PaymentFeedback)
  | Process (feedback : PaymentFeedback) (handlers : @WebhookHandler W).

(** The heap after a method call settles. *)
Definition after_call (m : Method) (h : @Heap W) : @Heap W :=
  match m with
  | ParseWebhookRequest _ | GetEventType _ => h
  | Validate feedback => (read (fun this => validate this feedback) h).1
  | IsDuplicate feedback => (read (fun this => isDuplicate this feedback) h).1
  | MarkAsProcessed feedback =>
      (update (fun this => markAsProcessed this feedback) h).1
  | ClearProcessedKeys => (update clearProcessedKeys h).1
  | Process feedback handlers => (process feedback handlers h).1
  end.

End Vocabulary.

(** ** Concrete records and callbacks *)

(** Two records collide: payment [7_1] in state 4 and payment [7] in
    state 1 with correlation field [4_]. *)
Definition collision_left : PaymentFeedback :=
  <["mul_no" := JsString "7_1"]> (<["pay_state" := JsNumber 4]> ∅).

Definition collision_right : PaymentFeedback :=
  <["mul_no" := JsString "7"]>
    (<["pay_state" := JsNumber 1]> (<["var1" := JsString "4_"]> ∅)).

(** A transport error of the platform, with a code of its own. *)
Definition refused : JsError :=
  {| message := "connect ECONNREFUSED 203.0.113.7:443";
     code := Some "ECONNREFUSED";
     state := None;
     errorMessage := None |}.

Definition merchant : PayAppCredentials :=
  {| userid := "merchant"; linkkey := "key"; linkval := "val" |}.

(** A completed payment with the merchant's credentials. *)
Definition completed_feedback : PaymentFeedback :=
  <["userid" := JsString "merchant"]>
    (<["linkkey" := JsString "key"]>
       (<["linkval" := JsString "val"]>
          (<["mul_no" := JsString "12345"]>
             (<["pay_state" := JsNumber 4]>
                (<["price" := JsString "9900"]> ∅))))).

(** The same payload with a guessed link key. *)
Definition forged_feedback : PaymentFeedback :=
  <["linkkey" := JsString "guess"]> completed_feedback.

(** The same payment when it was requested, and in a state the library
    does not know. *)
Definition requested_feedback : PaymentFeedback :=
  <["pay_state" := JsNumber 1]> completed_feedback.

Definition unknown_feedback : PaymentFeedback :=
  <["pay_state" := JsNumber 99]> completed_feedback.

(** Host callbacks over a count of credited payments. *)
Definition credit (_ : PaymentFeedback) (n : nat) : nat * Completion unit :=
  (S n, Fulfilled tt).

Definition insert_fails (_ : PaymentFeedback) (n : nat)
    : nat * Completion unit :=
  (n, Rejected (ErrorObject (new_Error "insert failed"))).

Definition log_fails (_ : JsError) (_ : option PaymentFeedback) (n : nat)
    : nat * Completion unit :=
  (n, Rejected (ErrorObject (new_Error "log store unavailable"))).

Definition no_handlers : @WebhookHandler nat :=
  {| onPaymentRequested := None; onPaymentCompleted := None;
     onPaymentCancelled := None; onPaymentWaiting := None;
     onError := None |}.

Definition crediting_handlers : @WebhookHandler nat :=
  {| onPaymentRequested := None; onPaymentCompleted := Some credit;
     onPaymentCancelled := None; onPaymentWaiting := None;
     onError := None |}.

Definition failing_handlers : @WebhookHandler nat :=
  {| onPaymentRequested := None; onPaymentCompleted := Some insert_fails;
     onPaymentCancelled := None; onPaymentWaiting := None;
     onError := None |}.

Definition failing_log_handlers : @WebhookHandler nat :=
  {| onPaymentRequested := None; onPaymentCompleted := None;
     onPaymentCancelled := None; onPaymentWaiting := None;
     onError := Some log_fails |}.

Definition all_failing_handlers : @WebhookHandler nat :=
  {| onPaymentRequested := None; onPaymentCompleted := Some insert_fails;
     onPaymentCancelled := None; onPaymentWaiting := None;
     onError := Some log_fails |}.

Definition forged_request : Request :=
  {| method := "POST";
     content_type := Some "application/x-www-form-urlencoded";
     text := Fulfilled
       "userid=merchant&linkkey=guess&linkval=val&mul_no=12345&pay_state=4" |}.

Definition completed_request : Request :=
  {| method := "POST";
     content_type := Some "application/x-www-form-urlencoded";
     text := Fulfilled
       "userid=merchant&linkkey=key&linkval=val&mul_no=12345&pay_state=4&price=9900" |}.

(** A fresh processor for the merchant, nothing credited, nothing done. *)
Definition start : @Heap nat :=
  {| this := new_PayAppWebhookProcessor merchant;
     world := 0%nat;
     trace := [] |}.

(** ** The rest of [src/lib/client.ts] *)

(** *** Display tables *)

(** The table inside [getPayStateString]. *)
Definition pay_state_names : gmap Z string :=
  list_to_map
    [(1, "요청"); (4, "결제완료"); (8, "요청취소"); (9, "승인취소");
     (10, "결제대기"); (32, "요청취소"); (64, "승인취소"); (70, "부분취소");
     (71, "부분취소")].

(** [states[state] || '알 수 없음'] *)
Definition getPayStateString (state : Z) : string :=
  or_default (pay_state_names !! state) "알 수 없음".

(** The table inside [getPayTypeString]. *)
Definition pay_type_names : gmap Z string :=
  list_to_map
    [(1, "신용카드"); (2, "휴대전화"); (4, "대면결제"); (6, "계좌이체");
     (7, "가상계좌"); (15, "카카오페이"); (16, "네이버페이"); (17, "등록결제");
     (21, "스마일페이"); (22, "위챗페이"); (23, "애플페이"); (24, "내통장결제");
     (25, "토스페이")].

Definition getPayTypeString (type : Z) : string :=
  or_default (pay_type_names !! type) "알 수 없음".

(** *** Error helpers *)

Definition PAYAPP_ERROR_MESSAGES : gmap string string :=
  list_to_map
    [("70001", "HTTPS 프로토콜을 사용해야 합니다.");
     ("70010", "판매자 아이디 또는 연동키가 올바르지 않습니다.");
     ("70020", "파라메터 값이 올바르지 않습니다.");
     ("70040", "명령(cmd) 값이 올바르지 않습니다.");
     ("70060", "권한이 없습니다.");
     ("70080", "고객사 응답이 실패했습니다. feedbackurl에서 SUCCESS를 응답해주세요.");
     ("80010", "취소할 수 없는 상태입니다.");
     ("80020", "취소할 수 없는 상태입니다.");
     ("80030", "취소 금액이 올바르지 않습니다.")].

(** [PAYAPP_ERROR_MESSAGES] is an object literal: a read with one of
    these names finds a property of [Object.prototype], which is a
    function or an object and no string. *)
Definition Object_prototype_names : list string :=
  ["constructor"; "hasOwnProperty"; "isPrototypeOf"; "propertyIsEnumerable";
   "toLocaleString"; "toString"; "valueOf"; "__proto__";
   "__defineGetter__"; "__defineSetter__"; "__lookupGetter__";
   "__lookupSetter__"].

(** What a function declared to return a string hands back. *)
Inductive Looked : Type :=
  | Text (s : string)
  | Inherited (name : string).

(** [PAYAPP_ERROR_MESSAGES[code] || '알 수 없는 오류가 발생했습니다.'] *)
Definition getPayAppErrorMessage (code : string) : Looked :=
  match PAYAPP_ERROR_MESSAGES !! code with
  | Some m => Text (or_default (Some m) "알 수 없는 오류가 발생했습니다.")
  | None =>
      if bool_decide (code ∈ Object_prototype_names) then Inherited code
      else Text "알 수 없는 오류가 발생했습니다."
  end.

(** [error instanceof Error && 'code' in error && 'state' in error &&
    error.state === '0'] *)
Definition isPayAppError (error : Exception) : bool :=
  match error with
  | ErrorObject e =>
      bool_decide (is_Some (code e)) && bool_decide (is_Some (state e)) &&
      bool_decide (state e = Some "0")
  | NonError _ => false
  end.

Definition createPayAppClient (credentials : PayAppCredentials)
    (isProduction : bool) : PayAppConfig :=
  new_PayAppClient credentials isProduction.

(** *** The other operations of [PayAppClient] *)

Section Operations.

Variable entries : gmap string JsValue -> list (string * JsValue).
Variable fetch : string -> FetchInit -> Completion FetchResponse.

(** [{ cmd: tag, userid: this.config.credentials.userid, ...params }] *)
Definition tagged (this : PayAppConfig) (tag : string)
    (params : gmap string JsValue) : gmap string JsValue :=
  params ∪
  <["cmd" := JsString tag]>
    (<["userid" := JsString (userid (config_credentials this))]> ∅).

Definition registerBill (this : PayAppConfig) (params : gmap string JsValue)
    : Completion (gmap string string) :=
  callAPI entries fetch this (tagged this "billRegist" params).









End Operations.

(** The operations of the client, by name. *)
Inductive Operation : Type :=
  | RequestPayment | CancelPayment | RegisterBill | DeleteBill | PayWithBill
  | RegisterRecurringPayment | CancelRecurringPayment | StopRecurringPayment
  | StartRecurringPayment | IssueCashReceipt | CancelCashReceipt.

#[global] Instance Operation_eq_dec : EqDecision Operation.
Proof. solve_decision. Defined.



(** *** The browser SDK helpers *)

(** A call received by the global [PayApp] object of the hosted script. *)
Inductive SdkCall : Type :=
  | setDefault (key value : string)
  | setParam (key : string) (value : JsValue)
  | payrequest
  | rebill.

(** [window.PayApp]: absent, or the SDK object with the calls it has
    received, oldest first.  The methods are those of the hosted script;
    they are taken to return. *)
Record Window : Type := {
  PayApp : option (list SdkCall);
}.

Definition sdk_call (c : SdkCall) (window : Window) : Window :=
  {| PayApp := (fun calls => (calls ++ [c])%list) <$> PayApp window |}.

Definition initPayAppSDK (userid shopname : string) (window : Window)
    : Window * Completion unit :=
  match PayApp window with
  | None => (window, Rejected (ErrorObject (new_Error "PayApp SDK not loaded")))
  | Some _ =>
      (sdk_call (setDefault "shopname" shopname)
         (sdk_call (setDefault "userid" userid) window),
       Fulfilled tt)
  end.

Section SDK.

Variable entries : gmap string JsValue -> list (string * JsValue).

(** [Object.entries(params).forEach(([key, value]) => PayApp.setParam(key, value))] *)
Definition set_params (params : gmap string JsValue) (window : Window)
    : Window :=
  fold_left (fun w kv => sdk_call (setParam kv.1 kv.2) w)
    (entries params) window.

Definition requestPaymentWithSDK (params : gmap string JsValue)
    (window : Window) : Window * Completion unit :=
  match PayApp window with
  | None => (window, Rejected (ErrorObject (new_Error "PayApp SDK not loaded")))
  | Some _ => (sdk_call payrequest (set_params params window), Fulfilled tt)
  end.

Definition requestRecurringPaymentWithSDK (params : gmap string JsValue)
    (window : Window) : Window * Completion unit :=
  match PayApp window with
  | None => (window, Rejected (ErrorObject (new_Error "PayApp SDK not loaded")))
  | Some _ => (sdk_call rebill (set_params params window), Fulfilled tt)
  end.

End SDK.

(** ** The utilities of [src/lib/webhook.ts] *)

(** *** [parseInt] *)

(** The result of [parseInt(string)] with no radix.  [Finite z] is the
    integer [z], of magnitude at most 2^53 and so exactly a Number;
    [Beyond] is a digit string of a larger value, whose Number is rounded
    and is not tracked here. *)
Inductive ParsedInt : Type :=
  | NaN
  | Finite (z : Z)
  | Beyond.

(** White space and line terminators of one, two and three UTF-8 bytes:
    TAB, LF, VT, FF, CR, SP; U+00A0; U+1680, U+2000 to U+200A, U+2028,
    U+2029, U+202F, U+205F, U+3000 and U+FEFF. *)
Definition is_white_1 (x : N) : bool :=
  ((x =? 9) || (x =? 10) || (x =? 11) || (x =? 12) || (x =? 13)
   || (x =? 32))%N.

Definition is_white_2 (x y : N) : bool := ((x =? 194) && (y =? 160))%N.

Definition is_white_3 (x y z : N) : bool :=
  (((x =? 225) && (y =? 154) && (z =? 128))
   || ((x =? 226) && (y =? 128) && ((128 <=? z) && (z <=? 138)))
   || ((x =? 226) && (y =? 128) && ((z =? 168) || (z =? 169) || (z =? 175)))
   || ((x =? 226) && (y =? 129) && (z =? 159))
   || ((x =? 227) && (y =? 128) && (z =? 128))
   || ((x =? 239) && (y =? 187) && (z =? 191)))%N.

(** [TrimString(s, start)] *)
Fixpoint trim_start (s : string) : string :=
  match s with
  | "" => ""
  | String a r1 =>
      if is_white_1 (N_of_ascii a) then trim_start r1
      else
        match r1 with
        | String b r2 =>
            if is_white_2 (N_of_ascii a) (N_of_ascii b) then trim_start r2
            else
              match r2 with
              | String c r3 =>
                  if is_white_3 (N_of_ascii a) (N_of_ascii b) (N_of_ascii c)
                  then trim_start r3
                  else s
              | "" => s
              end
        | "" => s
        end
  end.

Definition decimal_value (c : ascii) : option N :=
  let n := N_of_ascii c in
  if (48 <=? n)%N && (n <=? 57)%N then Some (n - 48)%N else None.

(** The digits at the head of [s], up to the first character that is
    no digit. *)
Fixpoint leading_digits (digit : ascii -> option N) (s : string) : list N :=
  match s with
  | "" => []
  | String c r =>
      match digit c with
      | Some d => d :: leading_digits digit r
      | None => []
      end
  end.

Definition number_of (radix : N) (digits : list N) : N :=
  fold_left (fun acc d => (acc * radix + d)%N) digits 0%N.

Definition parseInt (input : string) : ParsedInt :=
  let S := trim_start input in
  let signed :=
    match S with
    | String c r =>
        if decide (c = "-"%char) then ((-1)%Z, r)
        else if decide (c = "+"%char) then (1%Z, r)
        else (1%Z, S)
    | "" => (1%Z, S)
    end in
  let radixed :=
    match signed.2 with
    | String z (String x r) =>
        if bool_decide (z = "0"%char)
           && (bool_decide (x = "x"%char) || bool_decide (x = "X"%char))
        then (16%N, hex_value, r)
        else (10%N, decimal_value, signed.2)
    | _ => (10%N, decimal_value, signed.2)
    end in
  match leading_digits radixed.1.2 radixed.2 with
  | [] => NaN
  | digits =>
      let mathInt := number_of radixed.1.1 digits in
      if (mathInt <=? 2 ^ 53)%N then Finite (signed.1 * Z.of_N mathInt)
      else Beyond
  end.

(** *** Payment checks *)

(** [parseInt(feedback.price) === expectedAmount]; [None] when the price
    is [Beyond]. *)
Definition validatePaymentAmount (feedback : PaymentFeedback)
    (expectedAmount : Z) : option bool :=
  match parseInt (ToString (prop feedback "price")) with
  | NaN => Some false
  | Finite actualAmount => Some (bool_decide (actualAmount = expectedAmount))
  | Beyond => None
  end.

(** [isPaymentCompleted(feedback) && validatePaymentAmount(...)] *)
Definition verifyPayment (feedback : PaymentFeedback) (expectedAmount : Z)
    : option bool :=
  if isPaymentCompleted feedback
  then validatePaymentAmount feedback expectedAmount
  else Some false.

Record CardInfo : Type := {
  cardName : JsValue;
  cardNum : JsValue;
  authCode : JsValue;
  quota : JsValue;
}.

Record VbankInfo : Type := {
  bankName : JsValue;
  accountNo : JsValue;
  depositor : JsValue;
}.

Record PaymentInfo : Type := {
  mulNo : JsValue;
  goodName : JsValue;
  price : ParsedInt;
  recvPhone : JsValue;
  payDate : JsValue;
  payType : JsValue;
  payState : JsValue;
  isCompleted : bool;
  isCancelled : bool;
  info_var1 : JsValue;
  info_var2 : JsValue;
  cardInfo : option CardInfo;
  vbankInfo : option VbankInfo;
}.

Definition extractPaymentInfo (feedback : PaymentFeedback) : PaymentInfo :=
  {| mulNo := prop feedback "mul_no";
     goodName := prop feedback "goodname";
     price := parseInt (ToString (prop feedback "price"));
     recvPhone := prop feedback "recvphone";
     payDate := prop feedback "pay_date";
     payType := prop feedback "pay_type";
     payState := prop feedback "pay_state";
     isCompleted := isPaymentCompleted feedback;
     isCancelled := isPaymentCancelled feedback;
     info_var1 := prop feedback "var1";
     info_var2 := prop feedback "var2";
     cardInfo :=
       if ToBoolean (prop feedback "card_name") then
         Some {| cardName := prop feedback "card_name";
                 cardNum := prop feedback "card_num";
                 authCode := prop feedback "payauthcode";
                 quota := prop feedback "card_quota" |}
       else None;
     vbankInfo :=
       if ToBoolean (prop feedback "vbank") then
         Some {| bankName := prop feedback "vbank";
                 accountNo := prop feedback "vbankno";
                 depositor := prop feedback "depositor" |}
       else None |}.

(** ** [src/hooks/index.ts] *)

(** [usePayAppErrorMessage]: [None] is [null]. *)
Definition usePayAppErrorMessage (error : option JsError) : option Looked :=
  match error with
  | None => None
  | Some e =>
      if negb (isPayAppError (ErrorObject e)) then Some (Text (message e))
      else
        match code e with
        | Some c =>
            if bool_decide (c = "")
            then Some (Text (or_default (errorMessage e) (message e)))
            else Some (getPayAppErrorMessage c)
        | None => Some (Text (or_default (errorMessage e) (message e)))
        end
  end.

Module Hooks.

(** The state cells of [usePayAppBilling] and [usePayAppCancel], each
    holding the value last given to its setter. *)
Record ActionState : Type := {
  isLoading : bool;
  error : option Exception;
}.

(** The state cells of [usePayApp]. *)
Record PayAppState : Type := {
  isSDKLoaded : bool;
  sdk_isLoading : bool;
  sdk_error : option Exception;
}.

Section Actions.

(** The state of the component that uses the hook; its callbacks run to
    completion and return or throw. *)
Context {W : Type}.

Variable entries : gmap string JsValue -> list (string * JsValue).
Variable fetch : string -> FetchInit -> Completion FetchResponse.

(** A callback body over the cells [S] of a hook and the component. *)
Definition Act (S A : Type) : Type := S * W -> (S * W) * Completion A.

Definition ret {S A} (a : A) : Act S A := fun s => (s, Fulfilled a).

Definition bind {S A B} (m : Act S A) (k : A -> Act S B) : Act S B :=
  fun s =>
    match m s with
    | (s', Fulfilled a) => k a s'
    | (s', Rejected e) => (s', Rejected e)
    end.

Definition throw {S A} (e : Exception) : Act S A := fun s => (s, Rejected e).

(** [await p] *)
Definition await {S A} (c : Completion A) : Act S A := fun s => (s, c).

(** A setter call. *)
Definition set {S} (f : S -> S) : Act S unit :=
  fun s => ((f s.1, s.2), Fulfilled tt).

(** [if (callback) callback(...)] *)
Definition call {S} (callback : option (W -> W * Completion unit))
    : Act S unit :=
  fun s =>
    match callback with
    | Some f => let (w, r) := f s.2 in ((s.1, w), r)
    | None => (s, Fulfilled tt)
    end.

(** [try { body } catch (err) { handler } finally { finalizer }] *)
Definition try_catch_finally {S A} (body : Act S A)
    (handler : Exception -> Act S A) (finalizer : Act S unit) : Act S A :=
  fun s =>
    let caught :=
      match body s with
      | (s1, Fulfilled a) => (s1, Fulfilled a)
      | (s1, Rejected err) => handler err s1
      end in
    match finalizer caught.1 with
    | (s3, Fulfilled _) => (s3, caught.2)
    | (s3, Rejected e) => (s3, Rejected e)
    end.

Definition setIsLoading (b : bool) : Act ActionState unit :=
  set (fun st => {| isLoading := b; error := error st |}).

Definition setError (e : option Exception) : Act ActionState unit :=
  set (fun st => {| isLoading := isLoading st; error := e |}).

Definition clearError : Act ActionState unit := setError None.

(** The options of [usePayAppCancel]. *)
Record CancelOptions : Type := {
  cancel_credentials : PayAppCredentials;
  cancel_onSuccess : option (W -> W * Completion unit);
  cancel_onError : option (Exception -> W -> W * Completion unit);
}.

(** The [cancelPayment] callback of [usePayAppCancel]. *)
Definition cancelPayment (options : CancelOptions)
    (params : gmap string JsValue) : Act ActionState unit :=
  let client := createPayAppClient (cancel_credentials options) false in
  try_catch_finally
    (bind (setIsLoading true) (fun _ =>
     bind clearError (fun _ =>
     bind (await (cancelPayment entries fetch client params)) (fun _ =>
     call (cancel_onSuccess options)))))
    (fun err =>
     bind (setError (Some err)) (fun _ =>
     bind (call ((fun f => f err) <$> cancel_onError options)) (fun _ =>
     throw err)))
    (setIsLoading false).

(** The options of [usePayAppBilling]; [onSuccess] receives [encBill]. *)
Record BillingOptions : Type := {
  billing_credentials : PayAppCredentials;
  billing_onSuccess : option (string -> W -> W * Completion unit);
  billing_onError : option (Exception -> W -> W * Completion unit);
}.

(** The [registerBill] callback of [usePayAppBilling]; it returns
    [response.encBill], [None] for [undefined]. *)
Definition registerBill (options : BillingOptions)
    (params : gmap string JsValue) : Act ActionState (option string) :=
  let client := createPayAppClient (billing_credentials options) false in
  try_catch_finally
    (bind (setIsLoading true) (fun _ =>
     bind clearError (fun _ =>
     bind (await (registerBill entries fetch client params)) (fun response =>
     bind (match response !! "encBill" with
           | Some encBill =>
               if bool_decide (encBill = "") then ret tt
               else call ((fun f => f encBill) <$> billing_onSuccess options)
           | None => ret tt
           end) (fun _ =>
     ret (response !! "encBill"))))))
    (fun err =>
     bind (setError (Some err)) (fun _ =>
     bind (call ((fun f => f err) <$> billing_onError options)) (fun _ =>
     throw err)))
    (setIsLoading false).

(** [try { body } catch (err) { handler }] *)
Definition try_catch {S A} (body : Act S A) (handler : Exception -> Act S A)
    : Act S A :=
  fun s =>
    match body s with
    | (s1, Fulfilled a) => (s1, Fulfilled a)
    | (s1, Rejected err) => handler err s1
    end.

(** The options of [usePayApp] that its [requestPayment] callback uses. *)
Record PayAppOptions : Type := {
  payapp_onError : option (Exception -> W -> W * Completion unit);
}.

(** The [requestPayment] callback of [usePayApp], over the cells of the
    hook and the global [window]. *)
Definition requestPayment (options : PayAppOptions)
    (params : gmap string JsValue) : Act (PayAppState * Window) unit :=
  try_catch
    (bind (fun s : (PayAppState * Window) * W =>
             if isSDKLoaded s.1.1 then (s, Fulfilled tt)
             else (s, Rejected
                        (ErrorObject (new_Error "PayApp SDK is not loaded"))))
       (fun _ =>
     bind (set (fun st : PayAppState * Window =>
                  ({| isSDKLoaded := isSDKLoaded st.1;
                      sdk_isLoading := sdk_isLoading st.1;
                      sdk_error := None |}, st.2))) (fun _ =>
     fun s : (PayAppState * Window) * W =>
       let (window, r) := requestPaymentWithSDK entries params s.1.2 in
       (((s.1.1, window), s.2), r))))
    (fun err =>
     bind (set (fun st : PayAppState * Window =>
                  ({| isSDKLoaded := isSDKLoaded st.1;
                      sdk_isLoading := sdk_isLoading st.1;
                      sdk_error := Some err |}, st.2))) (fun _ =>
     call ((fun f => f err) <$> payapp_onError options))).

End Actions.

End Hooks.

(** ** Concrete hook inputs *)



Definition billing_options : @Hooks.BillingOptions nat :=
  {| Hooks.billing_credentials := merchant;
     Hooks.billing_onSuccess := Some (fun _ n => (S n, Fulfilled tt));
     Hooks.billing_onError := None |}.

(** A transport by which the provider accepts everything. *)
Definition accepting (_ : string) (_ : FetchInit) : Completion FetchResponse :=
  Fulfilled {| ok := true; response_status := 200;
               response_text := Fulfilled "state=1" |}.

Definition idle : Hooks.ActionState :=
  {| Hooks.isLoading := false; Hooks.error := None |}.

Definition sdk_pending : Hooks.PayAppState :=
  {| Hooks.isSDKLoaded := false; Hooks.sdk_isLoading := true;
     Hooks.sdk_error := None |}.

(** * Properties *)

(** ** Classification *)

Example key_of_completed_payment :
  generateFeedbackKey
    (<["mul_no" := JsString "12345"]> (<["pay_state" := JsNumber 4]> ∅))
  = "12345_4__".
Proof. vm_compute. reflexivity. Qed.

(** C4: classification is total over the integers.  A feedback whose
    [pay_state] is the integer [n] has exactly one event type, and that
    type is [requested] for 1, [completed] for 4, [cancelled] for each of
    8, 9, 32, 64, 70, 71, [waiting] for 10 and [unknown] for every other
    integer. *)
Theorem getEventType_total (feedback : PaymentFeedback) (n : Z) :
  prop feedback "pay_state" = JsNumber n ->
  (exists! ev, getEventType feedback = ev) /\
  getEventType feedback =
    (if decide (n = 1) then payment_requested
     else if decide (n = 4) then payment_completed
     else if decide (n ∈ [8; 9; 32; 64; 70; 71]) then payment_cancelled
     else if decide (n = 10) then payment_waiting
     else payment_unknown).
Proof.
  intros Hn. split.
  { exists (getEventType feedback). split; [reflexivity | auto]. }
  unfold getEventType. rewrite Hn.
  repeat case_decide; subst; try reflexivity.
  - repeat match goal with
           | H : _ ∈ _ :: _ |- _ => apply elem_of_cons in H as [-> | H]
           | H : _ ∈ [] |- _ => by apply elem_of_nil in H
           end; reflexivity.
  - assert (Hc : ∀ k, k ∈ [8; 9; 32; 64; 70; 71] -> n ≠ k)
      by (intros k Hk ->; contradiction).
    pose proof (Hc 8 ltac:(set_solver)). pose proof (Hc 9 ltac:(set_solver)).
    pose proof (Hc 32 ltac:(set_solver)). pose proof (Hc 64 ltac:(set_solver)).
    pose proof (Hc 70 ltac:(set_solver)). pose proof (Hc 71 ltac:(set_solver)).
    destruct n as [|p|p]; try reflexivity.
    do 7 (destruct p as [p|p|]; try reflexivity; try lia).
Qed.

Lemma getEventType_total_witness :
  prop (<["pay_state" := JsNumber 71]> ∅) "pay_state" = JsNumber 71 /\
  getEventType (<["pay_state" := JsNumber 71]> ∅) = payment_cancelled.
Proof.
  split; [reflexivity |].
  apply (getEventType_total (<["pay_state" := JsNumber 71]> ∅) 71).
  reflexivity.
Defined.

Lemma isPaymentCompleted_getEventType (feedback : PaymentFeedback) :
  isPaymentCompleted feedback = true
  <-> getEventType feedback = payment_completed.
Proof.
  unfold isPaymentCompleted, getEventType, strict_eq.
  rewrite bool_decide_eq_true. split.
  - by intros ->.
  - destruct (prop feedback "pay_state") as [| |s|n]; try done.
    destruct n as [|p|p]; try done.
    do 7 (destruct p as [p|p|]; try done).
Qed.

(** Every field of a posted body is a string, and no string is [===] to
    a number: a feedback that comes out of [parseWebhookRequest] is never
    classified as anything but [unknown]. *)
Lemma parseWebhookRequest_unclassified (body : gmap string string) :
  getEventType (parseWebhookRequest body) = payment_unknown.
Proof.
  unfold getEventType, parseWebhookRequest, prop.
  rewrite lookup_fmap. by destruct (body !! "pay_state").
Qed.

(** ** The dedup key *)


(** A string is cut in one way only at the first occurrence of [c]. *)
Lemma first_separator c a a' r r' :
  occurs c a = false -> occurs c a' = false ->
  a +:+ String c r = a' +:+ String c r' -> a = a' /\ r = r'.
Proof.
  revert a'. induction a as [|d a IH]; intros [|d' a']; simpl;
    intros Ha Ha' Heq.
  - by simplify_eq.
  - simplify_eq. rewrite bool_decide_eq_true_2 in Ha' by done. done.
  - simplify_eq. rewrite bool_decide_eq_true_2 in Ha by done. done.
  - apply orb_false_iff in Ha as [_ Ha]. apply orb_false_iff in Ha' as [_ Ha'].
    injection Heq as -> Heq. destruct (IH a' Ha Ha' Heq) as [-> ->]. done.
Qed.

Lemma occurs_pretty_N_go c x s :
  (∀ d, (d < 10)%N -> pretty_N_char d ≠ c) ->
  occurs c s = false -> occurs c (pretty_N_go x s) = false.
Proof.
  intros Hc. revert s.
  induction (N.lt_wf_0 x) as [x _ IH]; intros s Hs.
  assert (x = 0 ∨ 0 < x)%N as [-> | Hx] by lia.
  - by rewrite pretty_N_go_0.
  - rewrite pretty_N_go_step by done. apply IH.
    { by apply N.div_lt. }
    simpl. rewrite Hs, orb_false_r. apply bool_decide_eq_false_2.
    apply Hc. by apply N.mod_lt.
Qed.

(** The decimal rendering of an integer has no underscore. *)
Lemma occurs_underscore_pretty (n : Z) : occurs "_" (pretty n) = false.
Proof.
  assert (Hd : ∀ d, (d < 10)%N -> pretty_N_char d ≠ "_"%char).
  { intros d _. unfold pretty_N_char. by repeat case_match. }
  assert (HN : ∀ x : N, occurs "_" (pretty x) = false).
  { intros x. unfold pretty, pretty_N. case_decide; [reflexivity |].
    by apply occurs_pretty_N_go. }
  destruct n as [|p|p]; [reflexivity | apply HN |].
  change (pretty (Z.neg p)) with ("-" +:+ pretty (N.pos p)).
  simpl. apply HN.
Qed.

(** The key is the four fields joined by underscores. *)
Lemma generateFeedbackKey_typed feedback m n :
  prop feedback "mul_no" = JsString m ->
  prop feedback "pay_state" = JsNumber n ->
  ∃ rest, generateFeedbackKey feedback
          = m +:+ String "_" (pretty n +:+ String "_" rest).
Proof.
  intros Hm Hn. unfold generateFeedbackKey. rewrite Hm, Hn. simpl. eauto.
Qed.

(** C6, as stated, fails: two records that differ both in [mul_no] and in
    [pay_state] have the same key. *)
Lemma generateFeedbackKey_collision :
  prop collision_left "mul_no" ≠ prop collision_right "mul_no" /\
  prop collision_left "pay_state" ≠ prop collision_right "pay_state" /\
  generateFeedbackKey collision_left = generateFeedbackKey collision_right.
Proof. repeat split; vm_compute; congruence. Qed.

(** C6, amended: records that agree on [mul_no], [pay_state], [var1] and
    [var2] have the same key; records whose [mul_no] is a string without
    underscore and whose [pay_state] is an integer have distinct keys as
    soon as they differ in [mul_no] or in [pay_state]. *)
Theorem generateFeedbackKey_injective (f1 f2 : PaymentFeedback) :
  (prop f1 "mul_no" = prop f2 "mul_no" ->
   prop f1 "pay_state" = prop f2 "pay_state" ->
   prop f1 "var1" = prop f2 "var1" ->
   prop f1 "var2" = prop f2 "var2" ->
   generateFeedbackKey f1 = generateFeedbackKey f2) /\
  (∀ m1 m2 n1 n2,
     prop f1 "mul_no" = JsString m1 -> prop f2 "mul_no" = JsString m2 ->
     occurs "_" m1 = false -> occurs "_" m2 = false ->
     prop f1 "pay_state" = JsNumber n1 -> prop f2 "pay_state" = JsNumber n2 ->
     m1 ≠ m2 ∨ n1 ≠ n2 ->
     generateFeedbackKey f1 ≠ generateFeedbackKey f2).
Proof.
  split.
  - intros Hm Hs Hv1 Hv2. unfold generateFeedbackKey.
    by rewrite Hm, Hs, Hv1, Hv2.
  - intros m1 m2 n1 n2 Hm1 Hm2 Hu1 Hu2 Hn1 Hn2 Hdiff Hkey.
    destruct (generateFeedbackKey_typed f1 m1 n1 Hm1 Hn1) as [r1 Hk1].
    destruct (generateFeedbackKey_typed f2 m2 n2 Hm2 Hn2) as [r2 Hk2].
    rewrite Hk1, Hk2 in Hkey.
    apply first_separator in Hkey as [Hm Hrest]; [| done | done].
    apply first_separator in Hrest as [Hn _];
      [| apply occurs_underscore_pretty | apply occurs_underscore_pretty].
    apply (inj pretty) in Hn. destruct Hdiff; contradiction.
Qed.

Lemma generateFeedbackKey_injective_witness :
  generateFeedbackKey collision_right
  ≠ generateFeedbackKey (<["pay_state" := JsNumber 4]> collision_right).
Proof.
  apply (proj2 (generateFeedbackKey_injective collision_right
                  (<["pay_state" := JsNumber 4]> collision_right))
           "7" "7" 1 4); try reflexivity.
  right. lia.
Defined.

(** ** The form codec *)



















Lemma foldr_insert_proto (l : list (string * string))
    (acc : gmap string string) v k :
  k ≠ "__proto__" ->
  foldr (fun kv => <[kv.1 := kv.2]>) (<["__proto__" := v]> acc) l !! k
  = foldr (fun kv => <[kv.1 := kv.2]>) acc l !! k.
Proof.
  intros Hk. induction l as [|[k' v'] l IH]; simpl.
  - by rewrite lookup_insert_ne.
  - destruct (decide (k' = k)) as [-> | Hne].
    + by rewrite !lookup_insert_eq.
    + by rewrite !lookup_insert_ne.
Qed.

Lemma fold_left_js_assign (params : list (string * string))
    (acc : gmap string string) k :
  fold_left (fun result kv => js_assign result kv.1 kv.2) params acc !! k
  = if bool_decide (k = "__proto__") then acc !! k
    else foldr (fun kv => <[kv.1 := kv.2]>) acc (reverse params) !! k.
Proof.
  revert acc. induction params as [|[k' v'] params IH]; intros acc; simpl.
  - by case_bool_decide.
  - rewrite IH, reverse_cons, foldr_app. simpl. unfold js_assign.
    case_bool_decide as Hk; case_bool_decide as Hk'; subst; try done.
    + by rewrite lookup_insert_ne.
    + by rewrite foldr_insert_proto.
Qed.

(** The object that the loop of [parseResponse] builds: no [__proto__],
    and at any other name the value of the last pair of that name. *)
Lemma collect_lookup (params : list (string * string)) k :
  collect params !! k
  = if bool_decide (k = "__proto__") then None
    else (list_to_map (reverse params) : gmap string string) !! k.
Proof.
  unfold collect. rewrite fold_left_js_assign.
  by case_bool_decide.
Qed.

Section FormRoundTrip.

Variable entries : gmap string JsValue -> list (string * JsValue).

(** [Object.entries] lists each own property once, in some order. *)
Hypothesis entries_own : ∀ params, entries params ≡ₚ map_to_list params.








End FormRoundTrip.


(** ** The API caller *)

Section CallAPI.

Variable entries : gmap string JsValue -> list (string * JsValue).
Variable fetch : string -> FetchInit -> Completion FetchResponse.

(** What [callAPI] hands to the transport. *)
Let sent (this : PayAppConfig) (params : gmap string JsValue) :=
  fetch (apiUrl this)
    {| init_method := "POST";
       init_content_type := "application/x-www-form-urlencoded";
       init_body := URLSearchParams_toString (formData entries params) |}.

Lemma callAPI_rejection_coded this params x :
  callAPI entries fetch this params = Rejected x -> coded x.
Proof.
  unfold callAPI, try_catch, mbind, Completion_bind, mret, Completion_ret.
  destruct (fetch _ _) as [r | [e | v]].
  - destruct (ok r); simpl.
    + destruct (response_text r) as [t | [e | v]].
      * case_bool_decide; simpl; intros [= <-]; by eexists _, _.
      * case_bool_decide as Hc; intros [= <-].
        -- destruct Hc as [c Hc]. by exists e, c.
        -- by eexists _, _.
      * intros [= <-]. by eexists _, _.
    + intros [= <-]. by eexists _, _.
  - case_bool_decide as Hc; intros [= <-].
    + destruct Hc as [c Hc]. by exists e, c.
    + by eexists _, _.
  - intros [= <-]. by eexists _, _.
Qed.

Lemma requestPayment_rejection_coded this params x :
  requestPayment entries fetch this params = Rejected x -> coded x.
Proof. apply callAPI_rejection_coded. Qed.

Lemma cancelPayment_rejection_coded this params x :
  cancelPayment entries fetch this params = Rejected x -> coded x.
Proof. apply callAPI_rejection_coded. Qed.

Ltac callAPI_steps :=
  unfold callAPI, try_catch, mbind, Completion_bind, mret, Completion_ret.

Lemma callAPI_not_ok this params r :
  sent this params = Fulfilled r -> ok r = false ->
  callAPI entries fetch this params
  = Rejected (ErrorObject (createError
      ("HTTP error! status: " +:+ pretty (response_status r))
      (pretty (response_status r)))).
Proof.
  unfold sent. intros Hsent Hok. callAPI_steps.
  rewrite Hsent, Hok. reflexivity.
Qed.

Lemma callAPI_failure_state this params r t :
  sent this params = Fulfilled r -> ok r = true ->
  response_text r = Fulfilled t -> parseResponse t !! "state" = Some "0" ->
  callAPI entries fetch this params
  = Rejected (ErrorObject (createError
      (or_default (parseResponse t !! "errorMessage") "PayApp API error")
      "0")).
Proof.
  unfold sent. intros Hsent Hok Ht Hstate. callAPI_steps.
  rewrite Hsent, Hok, Ht. simpl.
  rewrite (bool_decide_eq_true_2 _ Hstate). reflexivity.
Qed.

Lemma callAPI_success this params r t :
  sent this params = Fulfilled r -> ok r = true ->
  response_text r = Fulfilled t -> parseResponse t !! "state" ≠ Some "0" ->
  callAPI entries fetch this params = Fulfilled (parseResponse t).
Proof.
  unfold sent. intros Hsent Hok Ht Hstate. callAPI_steps.
  rewrite Hsent, Hok, Ht. simpl.
  by rewrite (bool_decide_eq_false_2 _ Hstate).
Qed.

(** The [catch] block on a value thrown by the network call. *)
Lemma callAPI_exception this params x :
  sent this params = Rejected x ∨
  (∃ r, sent this params = Fulfilled r /\ ok r = true /\
        response_text r = Rejected x) ->
  callAPI entries fetch this params
  = match x with
    | ErrorObject e =>
        match code e with
        | Some _ => Rejected x
        | None => Rejected (ErrorObject (createError (message e) "UNKNOWN"))
        end
    | NonError _ =>
        Rejected (ErrorObject (createError "Unknown error" "UNKNOWN"))
    end.
Proof.
  unfold sent. intros [Hsent | (r & Hsent & Hok & Ht)]; callAPI_steps.
  - rewrite Hsent. destruct x as [e | v]; [| done]. by destruct (code e).
  - rewrite Hsent, Hok, Ht. simpl. destruct x as [e | v]; [| done].
    by destruct (code e).
Qed.

(** The network call settles in one of four ways. *)
Lemma sent_cases this params :
  (∃ x, sent this params = Rejected x) ∨
  (∃ r, sent this params = Fulfilled r /\ ok r = false) ∨
  (∃ r x, sent this params = Fulfilled r /\ ok r = true /\
          response_text r = Rejected x) ∨
  (∃ r t, sent this params = Fulfilled r /\ ok r = true /\
          response_text r = Fulfilled t).
Proof.
  destruct (sent this params) as [r | x]; [| eauto].
  destruct (ok r) eqn:Hok; [| eauto 6].
  destruct (response_text r) as [t | x] eqn:Ht; eauto 10.
Qed.

(** C8, amended: [callAPI] rejects with an error that carries a code
    and a message when the transport answers with a non-ok status (the
    code is the status) and when the [state] field of the parsed response
    is ["0"] (the code is ["0"]); an exception raised by the network call
    propagates unchanged when it is an [Error] that already has a [code]
    property and is otherwise wrapped into the same shape with code
    ["UNKNOWN"]; in the remaining case, and only then, the parsed
    response record is returned. *)
Theorem callAPI_contract (this : PayAppConfig) (params : gmap string JsValue) :
  let outcome := callAPI entries fetch this params in
  (∀ x, outcome = Rejected x -> coded x) /\
  (∀ r, sent this params = Fulfilled r -> ok r = false ->
     outcome = Rejected (ErrorObject (createError
       ("HTTP error! status: " +:+ pretty (response_status r))
       (pretty (response_status r))))) /\
  (∀ r t, sent this params = Fulfilled r -> ok r = true ->
     response_text r = Fulfilled t ->
     parseResponse t !! "state" = Some "0" ->
     ∃ msg, outcome = Rejected (ErrorObject (createError msg "0"))) /\
  (∀ x, sent this params = Rejected x ∨
        (∃ r, sent this params = Fulfilled r /\ ok r = true /\
              response_text r = Rejected x) ->
     (coded x -> outcome = Rejected x) /\
     (¬ coded x ->
      ∃ msg, outcome = Rejected (ErrorObject (createError msg "UNKNOWN")))) /\
  (∀ result, outcome = Fulfilled result <->
     ∃ r t, sent this params = Fulfilled r /\ ok r = true /\
            response_text r = Fulfilled t /\
            parseResponse t !! "state" ≠ Some "0" /\
            result = parseResponse t).
Proof.
  intros outcome. subst outcome.
  split; [apply callAPI_rejection_coded |].
  split; [apply callAPI_not_ok |].
  split.
  { intros r t Hsent Hok Ht Hstate. eexists.
    by apply (callAPI_failure_state this params r t). }
  split.
  { intros x Hx. rewrite (callAPI_exception this params x Hx). split.
    - intros (e & c & -> & Hc). by rewrite Hc.
    - intros Hn. destruct x as [e | v]; [| by eexists].
      destruct (code e) as [c|] eqn:Hc; [| by eexists].
      destruct Hn. by exists e, c. }
  intros result. split.
  - intros Hres.
    destruct (sent_cases this params)
      as [[x Hs] | [(r & Hs & Hok) | [(r & x & Hs & Hok & Ht) |
                                       (r & t & Hs & Hok & Ht)]]].
    + rewrite (callAPI_exception this params x) in Hres by eauto.
      destruct x as [e | v]; [destruct (code e) |]; discriminate.
    + rewrite (callAPI_not_ok this params r Hs Hok) in Hres. discriminate.
    + rewrite (callAPI_exception this params x) in Hres by eauto 6.
      destruct x as [e | v]; [destruct (code e) |]; discriminate.
    + destruct (decide (parseResponse t !! "state" = Some "0")) as [H0 | H0].
      * rewrite (callAPI_failure_state this params r t Hs Hok Ht H0) in Hres.
        discriminate.
      * rewrite (callAPI_success this params r t Hs Hok Ht H0) in Hres.
        injection Hres as <-. by exists r, t.
  - intros (r & t & Hs & Hok & Ht & Hstate & ->).
    by apply (callAPI_success this params r t).
Qed.

End CallAPI.

(** C8, as stated, fails: an exception of the network call that is an
    [Error] with a [code] of its own is not wrapped; it leaves [callAPI]
    as it is, with its own code and not ["UNKNOWN"]. *)
Lemma callAPI_keeps_foreign_code :
  callAPI map_to_list (fun _ _ => Rejected (ErrorObject refused))
    (new_PayAppClient
       {| userid := "merchant"; linkkey := "key"; linkval := "val" |} false)
    (<["cmd" := JsString "payrequest"]> ∅)
  = Rejected (ErrorObject refused) /\
  code refused ≠ Some "UNKNOWN" /\
  state refused ≠ Some "0".
Proof. repeat split; discriminate. Qed.

Lemma callAPI_contract_witness :
  callAPI map_to_list
    (fun _ _ => Fulfilled {| ok := false; response_status := 503;
                             response_text := Fulfilled "" |})
    (new_PayAppClient
       {| userid := "merchant"; linkkey := "key"; linkval := "val" |} false)
    (<["cmd" := JsString "payrequest"]> ∅)
  = Rejected (ErrorObject (createError "HTTP error! status: 503" "503")).
Proof.
  apply (proj1 (proj2 (callAPI_contract map_to_list
    (fun _ _ => Fulfilled {| ok := false; response_status := 503;
                             response_text := Fulfilled "" |})
    (new_PayAppClient
       {| userid := "merchant"; linkkey := "key"; linkval := "val" |} false)
    (<["cmd" := JsString "payrequest"]> ∅)))
    {| ok := false; response_status := 503; response_text := Fulfilled "" |});
    reflexivity.
Defined.

(** ** The webhook processor *)

Ltac async_steps :=
  unfold process, process_catch, webhookHandler, webhook_catch,
    try_catch_async, dispatch, report, await_callback, await, emit, read,
    update, throw, resolve, mbind, Async_bind.

Section ProcessorProperties.

Context {W : Type}.
Implicit Types (h : @Heap W) (handlers : @WebhookHandler W).
Implicit Types (feedback : PaymentFeedback).

Lemma since_app h h' effects :
  trace h' = (trace h ++ effects)%list -> since h h' = effects.
Proof. unfold since. intros ->. by rewrite drop_app_length. Qed.

Lemma invocations_app (t1 t2 : list Effect) :
  invocations (t1 ++ t2) = (invocations t1 ++ invocations t2)%list.
Proof. apply omap_app. Qed.

(** *** The catch blocks *)

(** What the [catch] block does when no [onError] is registered. *)
Lemma process_catch_unregistered feedback handlers error h :
  onError handlers = None ->
  process_catch feedback handlers error h
  = ({| this := this h; world := world h;
        trace := (trace h ++
                  [ConsoleError "Webhook processing error:" error])%list |},
     Fulfilled ERROR).
Proof. intros Hno. async_steps. simpl. by rewrite Hno. Qed.

(** With [onError] registered, it is called once with the error and
    the feedback, and its own rejection is what the block settles to. *)
Lemma process_catch_registered feedback handlers error h callback :
  onError handlers = Some callback ->
  process_catch feedback handlers error h
  = ({| this := this h;
        world := (callback (as_Error error) (Some feedback) (world h)).1;
        trace := (trace h ++
                  [ConsoleError "Webhook processing error:" error;
                   InvokeOnError (as_Error error) (Some feedback)])%list |},
     match (callback (as_Error error) (Some feedback) (world h)).2 with
     | Fulfilled _ => Fulfilled ERROR
     | Rejected x => Rejected x
     end).
Proof.
  intros Hreg. async_steps. simpl. rewrite Hreg.
  destruct (callback _ _ _) as [w [[]|x]]; simpl; by rewrite <- app_assoc.
Qed.

(** The block leaves the processor alone and calls no event callback. *)
Lemma process_catch_frame feedback handlers error h :
  let h' := (process_catch feedback handlers error h).1 in
  this h' = this h /\
  invocations (since h h') = [] /\
  error_reports (since h h')
  = match onError handlers with
    | Some _ => [(as_Error error, Some feedback)]
    | None => []
    end.
Proof.
  destruct (onError handlers) as [callback|] eqn:Hreg.
  - rewrite (process_catch_registered _ _ _ _ callback Hreg). simpl.
    by erewrite since_app by done.
  - rewrite (process_catch_unregistered _ _ _ _ Hreg). simpl.
    by erewrite since_app by done.
Qed.

Lemma process_catch_quiet feedback handlers error h :
  onError_quiet handlers ->
  (process_catch feedback handlers error h).2 = Fulfilled ERROR.
Proof.
  intros Hquiet. destruct (onError handlers) as [callback|] eqn:Hreg.
  - rewrite (process_catch_registered _ _ _ _ callback Hreg). simpl.
    destruct (Hquiet callback (as_Error error) (Some feedback) (world h) Hreg)
      as [w' ->]. reflexivity.
  - by rewrite (process_catch_unregistered _ _ _ _ Hreg).
Qed.

(** *** The paths through [process] *)

Lemma process_invalid feedback handlers h :
  validate (this h) feedback = false ->
  process feedback handlers h
  = process_catch feedback handlers
      (ErrorObject (new_Error "Invalid webhook credentials")) h.
Proof. intros Hv. unfold process, try_catch_async, mbind, Async_bind, read, throw. simpl. by rewrite Hv. Qed.

Lemma process_duplicate feedback handlers h :
  validate (this h) feedback = true ->
  isDuplicate (this h) feedback = true ->
  process feedback handlers h
  = ({| this := this h; world := world h;
        trace := (trace h ++
                  [ConsoleWarn "Duplicate webhook detected:"
                     (JsString (generateFeedbackKey feedback))])%list |},
     Fulfilled SUCCESS).
Proof.
  intros Hv Hd. unfold process, try_catch_async, mbind, Async_bind, read, emit, resolve.
  simpl. rewrite Hv. simpl. by rewrite Hd.
Qed.

(** The switch of step 4, seen through [handler_for]. *)
Lemma process_fresh feedback handlers h :
  validate (this h) feedback = true ->
  isDuplicate (this h) feedback = false ->
  process feedback handlers h
  = match handler_for handlers (getEventType feedback) with
    | Some (cb, callback) =>
        let h1 := {| this := this h;
                     world := (callback feedback (world h)).1;
                     trace := (trace h ++ [Invoke cb feedback])%list |} in
        match (callback feedback (world h)).2 with
        | Fulfilled _ =>
            ({| this := markAsProcessed (this h) feedback;
                world := world h1; trace := trace h1 |},
             Fulfilled SUCCESS)
        | Rejected error => process_catch feedback handlers error h1
        end
    | None =>
        ({| this := markAsProcessed (this h) feedback;
            world := world h;
            trace :=
              match getEventType feedback with
              | payment_unknown =>
                  (trace h ++ [ConsoleWarn "Unknown payment state:"
                                 (prop feedback "pay_state")])%list
              | _ => trace h
              end |},
         Fulfilled SUCCESS)
    end.
Proof.
  intros Hv Hd.
  unfold process, try_catch_async, mbind, Async_bind, read.
  simpl. rewrite Hv. simpl. rewrite Hd. simpl.
  unfold handler_for, dispatch, await_callback, emit, update, resolve.
  destruct (getEventType feedback); simpl;
    try match goal with
        | |- context [match ?reg handlers with _ => _ end] =>
            destruct (reg handlers) as [callback|]; simpl;
            [destruct (callback feedback (world h)) as [w [[]|e]] |]
        end; reflexivity.
Qed.

Lemma process_catch_trace feedback handlers error h :
  ∃ effects,
    trace (process_catch feedback handlers error h).1
    = (trace h ++ effects)%list.
Proof.
  destruct (onError handlers) as [callback|] eqn:Hreg.
  - rewrite (process_catch_registered _ _ _ _ callback Hreg). by eexists.
  - rewrite (process_catch_unregistered _ _ _ _ Hreg). by eexists.
Qed.

Lemma validateFeedback_true feedback credentials :
  validateFeedback feedback credentials = true
  <-> (prop feedback "userid", prop feedback "linkkey",
       prop feedback "linkval")
      = (JsString (userid credentials), JsString (linkkey credentials),
         JsString (linkval credentials)).
Proof.
  unfold validateFeedback, strict_eq.
  rewrite !andb_true_iff, !bool_decide_eq_true. split.
  - by intros [[-> ->] ->].
  - by intros [= -> -> ->].
Qed.

(** *** Credential validation *)

(** X6: a feedback with other credentials reaches no event callback and
    leaves the processor as it was; [onError], if registered, is called
    once with the validation error; the call settles to ["ERROR"] unless
    [onError] itself rejects. *)
Lemma process_invalid_credentials feedback handlers h :
  (prop feedback "userid", prop feedback "linkkey", prop feedback "linkval")
  ≠ (JsString (userid (credentials (this h))),
     JsString (linkkey (credentials (this h))),
     JsString (linkval (credentials (this h)))) ->
  let h' := (process feedback handlers h).1 in
  this h' = this h /\
  invocations (since h h') = [] /\
  error_reports (since h h')
  = match onError handlers with
    | Some _ => [(new_Error "Invalid webhook credentials", Some feedback)]
    | None => []
    end /\
  (onError_quiet handlers ->
   (process feedback handlers h).2 = Fulfilled ERROR).
Proof.
  intros Hne.
  assert (Hv : validate (this h) feedback = false).
  { unfold validate. apply not_true_is_false.
    by rewrite validateFeedback_true. }
  rewrite (process_invalid _ _ _ Hv).
  destruct (process_catch_frame feedback handlers
              (ErrorObject (new_Error "Invalid webhook credentials")) h)
    as (Hthis & Hinv & Herr).
  repeat split; [done | done | done |]. apply process_catch_quiet.
Qed.

(** *** Settling *)

(** When [onError] cannot reject, [process] always returns. *)
Lemma process_settles feedback handlers h :
  onError_quiet handlers ->
  ∃ result, (process feedback handlers h).2 = Fulfilled result.
Proof.
  intros Hquiet.
  destruct (validate (this h) feedback) eqn:Hv.
  - destruct (isDuplicate (this h) feedback) eqn:Hd.
    + rewrite (process_duplicate _ _ _ Hv Hd). by eexists.
    + rewrite (process_fresh _ _ _ Hv Hd).
      destruct (handler_for handlers (getEventType feedback))
        as [[cb callback]|]; [| by eexists]. simpl.
      destruct (callback feedback (world h)).2; [by eexists |].
      rewrite process_catch_quiet by done. by eexists.
  - rewrite (process_invalid _ _ _ Hv), process_catch_quiet by done.
    by eexists.
Qed.

(** A rejection of [process] is a rejection of [onError]. *)
Lemma process_rejected_by_onError feedback handlers h x :
  (process feedback handlers h).2 = Rejected x ->
  ∃ callback error w,
    onError handlers = Some callback /\
    (callback error (Some feedback) w).2 = Rejected x.
Proof.
  assert (Hcatch : ∀ error h0,
    (process_catch feedback handlers error h0).2 = Rejected x ->
    ∃ callback error w,
      onError handlers = Some callback /\
      (callback error (Some feedback) w).2 = Rejected x).
  { intros error h0. destruct (onError handlers) as [callback|] eqn:Hreg.
    - rewrite (process_catch_registered _ _ _ _ callback Hreg). simpl.
      destruct (callback _ _ _).2 eqn:Hcb; [done |]. intros [= ->].
      by exists callback, (as_Error error), (world h0).
    - by rewrite (process_catch_unregistered _ _ _ _ Hreg). }
  destruct (validate (this h) feedback) eqn:Hv.
  - destruct (isDuplicate (this h) feedback) eqn:Hd.
    + by rewrite (process_duplicate _ _ _ Hv Hd).
    + rewrite (process_fresh _ _ _ Hv Hd).
      destruct (handler_for handlers (getEventType feedback))
        as [[cb callback]|]; [| done]. simpl.
      destruct (callback feedback (world h)).2; [done |]. apply Hcatch.
  - rewrite (process_invalid _ _ _ Hv). apply Hcatch.
Qed.

(** *** The processed keys *)

Lemma process_credentials feedback handlers h :
  credentials (this (process feedback handlers h).1) = credentials (this h).
Proof.
  destruct (validate (this h) feedback) eqn:Hv.
  - destruct (isDuplicate (this h) feedback) eqn:Hd.
    + by rewrite (process_duplicate _ _ _ Hv Hd).
    + rewrite (process_fresh _ _ _ Hv Hd).
      destruct (handler_for handlers (getEventType feedback))
        as [[cb callback]|]; [| done]. simpl.
      destruct (callback feedback (world h)).2; [done |].
      by rewrite (proj1 (process_catch_frame _ _ _ _)).
  - rewrite (process_invalid _ _ _ Hv).
    by rewrite (proj1 (process_catch_frame _ _ _ _)).
Qed.

Lemma process_keys_subseteq feedback handlers h :
  processedKeys (this h)
  ⊆ processedKeys (this (process feedback handlers h).1).
Proof.
  destruct (validate (this h) feedback) eqn:Hv.
  - destruct (isDuplicate (this h) feedback) eqn:Hd.
    + by rewrite (process_duplicate _ _ _ Hv Hd).
    + rewrite (process_fresh _ _ _ Hv Hd).
      destruct (handler_for handlers (getEventType feedback))
        as [[cb callback]|]; [| simpl; set_solver]. simpl.
      destruct (callback feedback (world h)).2; [simpl; set_solver |].
      by rewrite (proj1 (process_catch_frame _ _ _ _)).
  - rewrite (process_invalid _ _ _ Hv).
    by rewrite (proj1 (process_catch_frame _ _ _ _)).
Qed.

(** C10: the processed keys only grow under [process], and under every
    other method except [clearProcessedKeys]; [clearProcessedKeys]
    empties the set, after which no feedback is a duplicate. *)
Theorem processedKeys_monotone :
  (∀ feedback handlers h,
     processedKeys (this h)
     ⊆ processedKeys (this (process feedback handlers h).1)) /\
  (∀ (m : @Method W) h,
     m ≠ ClearProcessedKeys ->
     processedKeys (this h) ⊆ processedKeys (this (after_call m h))) /\
  (∀ h,
     processedKeys (this (after_call ClearProcessedKeys h)) = ∅ /\
     ∀ feedback,
       isDuplicate (this (after_call ClearProcessedKeys h)) feedback = false).
Proof.
  split; [apply process_keys_subseteq |]. split.
  - intros m h Hm. destruct m; simpl; try done.
    + set_solver.
    + apply process_keys_subseteq.
  - intros h. split; [done |]. intros feedback.
    unfold isDuplicate. simpl. apply bool_decide_eq_false_2. set_solver.
Qed.

(** *** Failed dispatch *)

(** C3: when the registered handler of a valid, fresh feedback throws,
    the failed call leaves the processed keys as they were, and a later
    [process] call with the same feedback calls the handler again. *)
Theorem handler_failure_not_marked feedback handlers h cb callback e :
  validate (this h) feedback = true ->
  isDuplicate (this h) feedback = false ->
  handler_for handlers (getEventType feedback) = Some (cb, callback) ->
  (callback feedback (world h)).2 = Rejected e ->
  let h1 := (process feedback handlers h).1 in
  processedKeys (this h1) = processedKeys (this h) /\
  (generateFeedbackKey feedback ∉ processedKeys (this h1)) /\
  (∀ h2, this h2 = this h1 ->
         Invoke cb feedback ∈ since h2 (process feedback handlers h2).1).
Proof.
  intros Hv Hd Hreg Hthrow h1.
  assert (Hthis : this h1 = this h).
  { subst h1. rewrite (process_fresh _ _ _ Hv Hd), Hreg. simpl.
    rewrite Hthrow. by rewrite (proj1 (process_catch_frame _ _ _ _)). }
  split; [by rewrite Hthis |]. split.
  { rewrite Hthis. unfold isDuplicate in Hd.
    by apply bool_decide_eq_false_1 in Hd. }
  intros h2 Hh2. rewrite Hthis in Hh2.
  rewrite process_fresh, Hreg by (by rewrite Hh2). simpl.
  destruct (callback feedback (world h2)).2.
  - simpl. erewrite since_app by done. set_solver.
  - destruct (process_catch_trace feedback handlers e0
      {| this := this h2; world := (callback feedback (world h2)).1;
         trace := (trace h2 ++ [Invoke cb feedback])%list |})
      as [effects Ht].
    simpl in Ht. rewrite <- app_assoc in Ht.
    erewrite since_app by exact Ht. set_solver.
Qed.

(** *** Repeated delivery *)

Lemma generateFeedbackKey_ext (f1 f2 : PaymentFeedback) :
  prop f1 "mul_no" = prop f2 "mul_no" ->
  prop f1 "pay_state" = prop f2 "pay_state" ->
  prop f1 "var1" = prop f2 "var1" ->
  prop f1 "var2" = prop f2 "var2" ->
  generateFeedbackKey f1 = generateFeedbackKey f2.
Proof.
  intros Hm Hs Hv1 Hv2. unfold generateFeedbackKey.
  by rewrite Hm, Hs, Hv1, Hv2.
Qed.

(** C2, amended: the key is a function of [mul_no], [pay_state],
    [var1] and [var2]; and for a valid feedback whose matching handler,
    if one is registered, does not throw, the first [process] call
    returns ["SUCCESS"] and dispatches at most one handler, and a second
    call with the same feedback returns ["SUCCESS"] and dispatches
    none. *)
Theorem process_twice feedback handlers h :
  validate (this h) feedback = true ->
  (∀ cb callback,
     handler_for handlers (getEventType feedback) = Some (cb, callback) ->
     ∃ w, callback feedback (world h) = (w, Fulfilled tt)) ->
  let first := process feedback handlers h in
  (∀ feedback',
     prop feedback' "mul_no" = prop feedback "mul_no" ->
     prop feedback' "pay_state" = prop feedback "pay_state" ->
     prop feedback' "var1" = prop feedback "var1" ->
     prop feedback' "var2" = prop feedback "var2" ->
     generateFeedbackKey feedback' = generateFeedbackKey feedback) /\
  first.2 = Fulfilled SUCCESS /\
  (length (invocations (since h first.1)) ≤ 1)%nat /\
  ∀ h2, this h2 = this first.1 ->
        (process feedback handlers h2).2 = Fulfilled SUCCESS /\
        invocations (since h2 (process feedback handlers h2).1) = [].
Proof.
  intros Hv Hok first.
  split; [intros f'; apply generateFeedbackKey_ext |].
  assert (Hfirst : first.2 = Fulfilled SUCCESS /\
                   (length (invocations (since h first.1)) ≤ 1)%nat /\
                   credentials (this first.1) = credentials (this h) /\
                   generateFeedbackKey feedback ∈ processedKeys (this first.1)).
  { subst first. destruct (isDuplicate (this h) feedback) eqn:Hd.
    - rewrite (process_duplicate _ _ _ Hv Hd). simpl.
      erewrite since_app by done. simpl. repeat split; [lia |].
      unfold isDuplicate in Hd. by apply bool_decide_eq_true_1 in Hd.
    - rewrite (process_fresh _ _ _ Hv Hd).
      destruct (handler_for handlers (getEventType feedback))
        as [[cb callback]|] eqn:Hreg.
      + destruct (Hok cb callback eq_refl) as [w Hcb]. simpl.
        rewrite Hcb. simpl. erewrite since_app by done. simpl.
        repeat split; [lia | set_solver].
      + simpl. repeat split; [| set_solver].
        destruct (getEventType feedback); simpl;
          try (erewrite since_app by (symmetry; apply app_nil_r); simpl; lia).
        erewrite since_app by done. simpl. lia. }
  destruct Hfirst as (Hres & Hlen & Hcred & Hkey).
  split; [done |]. split; [done |].
  intros h2 Hh2.
  assert (Hv2 : validate (this h2) feedback = true).
  { unfold validate in *. by rewrite Hh2, Hcred. }
  assert (Hd2 : isDuplicate (this h2) feedback = true).
  { unfold isDuplicate. rewrite Hh2. by apply bool_decide_eq_true_2. }
  rewrite (process_duplicate _ _ _ Hv2 Hd2). simpl.
  by erewrite since_app by done.
Qed.

(** *** The request handler *)

Lemma webhook_catch_quiet handlers error h :
  onError_quiet handlers ->
  (webhook_catch handlers error h).2
  = Fulfilled {| body := "ERROR"; status := 200;
                 response_content_type := Some "text/plain" |}.
Proof.
  intros Hquiet. async_steps. simpl.
  destruct (onError handlers) as [callback|] eqn:Hreg; [| done].
  simpl. by destruct (Hquiet callback (as_Error error) None (world h) Hreg)
    as [w' ->].
Qed.

Lemma webhookHandler_not_POST handlers req h :
  method req ≠ "POST" ->
  webhookHandler handlers req h
  = (h, Fulfilled {| body := "Method not allowed"; status := 405;
                     response_content_type := Some "text/plain;charset=UTF-8" |}).
Proof.
  intros Hm. unfold webhookHandler, try_catch_async, resolve.
  by rewrite bool_decide_eq_false_2.
Qed.

Lemma webhookHandler_content_type handlers req h :
  method req = "POST" ->
  from_option (fun s => includes s "application/x-www-form-urlencoded")
    false (content_type req) = false ->
  webhookHandler handlers req h
  = (h, Fulfilled {| body := "Invalid content type"; status := 400;
                     response_content_type := Some "text/plain;charset=UTF-8" |}).
Proof.
  intros Hm Hct. unfold webhookHandler, try_catch_async, resolve.
  rewrite bool_decide_eq_true_2 by done. simpl. by rewrite Hct.
Qed.

(** A well-formed POST is answered with 200 and the text of the result,
    as long as [onError] cannot reject. *)
Lemma webhookHandler_accepted handlers req h :
  method req = "POST" ->
  from_option (fun s => includes s "application/x-www-form-urlencoded")
    false (content_type req) = true ->
  onError_quiet handlers ->
  ∃ result,
    (webhookHandler handlers req h).2
    = Fulfilled {| body := result_text result; status := 200;
                   response_content_type := Some "text/plain" |}.
Proof.
  intros Hm Hct Hquiet.
  unfold webhookHandler, try_catch_async, mbind, Async_bind, resolve, await.
  rewrite bool_decide_eq_true_2 by done. simpl. rewrite Hct. simpl.
  destruct (text req) as [t | x].
  - destruct (process_settles
                (parseWebhookRequest (collect (new_URLSearchParams t)))
                handlers h Hquiet) as [result Hres].
    destruct (process _ handlers h) as [h' r]. simpl in Hres. subst r.
    by exists result.
  - exists ERROR. by rewrite webhook_catch_quiet.
Qed.

End ProcessorProperties.

(** ** Scenarios *)

Example completed_payment_credited :
  let run := process completed_feedback crediting_handlers start in
  run.2 = Fulfilled SUCCESS /\ world run.1 = 1%nat /\
  trace run.1 = [Invoke OnPaymentCompleted completed_feedback].
Proof. vm_compute. auto. Qed.

Example second_delivery_skipped :
  let first := process completed_feedback crediting_handlers start in
  let second := process completed_feedback crediting_handlers first.1 in
  second.2 = Fulfilled SUCCESS /\ world second.1 = 1%nat.
Proof. vm_compute. auto. Qed.

(** Through the request handler the payment of [completed_feedback] is
    acknowledged but not credited: its [pay_state] arrives as ["4"]. *)
Example posted_payment_not_credited :
  let served := createWebhookHandler merchant crediting_handlers in
  let run := served.2 completed_request
               {| this := served.1; world := 0%nat; trace := [] |} in
  run.2 = Fulfilled {| body := "SUCCESS"; status := 200;
                       response_content_type := Some "text/plain" |} /\
  world run.1 = 0%nat /\
  invocations (trace run.1) = [].
Proof. vm_compute. auto. Qed.

(** C1: a forged feedback is answered with a rejection, not with
    ["ERROR"], when the registered [onError] callback throws. *)
Theorem process_forged_onError_throws :
  validate (this start) forged_feedback = false /\
  (process forged_feedback failing_log_handlers start).2
  = Rejected (ErrorObject (new_Error "log store unavailable")).
Proof. split; vm_compute; reflexivity. Qed.

(** C5: [process] throws when the handler throws and [onError] throws
    in turn. *)
Theorem process_escapes_when_onError_throws :
  validate (this start) completed_feedback = true /\
  (process completed_feedback all_failing_handlers start).2
  = Rejected (ErrorObject (new_Error "log store unavailable")).
Proof. split; vm_compute; reflexivity. Qed.

(** C7: a well-formed POST gets no response at all when [onError]
    throws: the request handler rejects. *)
Theorem webhookHandler_rejects_when_onError_throws :
  let served := createWebhookHandler merchant failing_log_handlers in
  (served.2 forged_request
     {| this := served.1; world := 0%nat; trace := [] |}).2
  = Rejected (ErrorObject (new_Error "log store unavailable")).
Proof. vm_compute. reflexivity. Qed.

(** C2, as stated, fails: with a handler that throws, the first call
    returns ["ERROR"] and the second call dispatches the handler again. *)
Lemma redelivery_after_failed_handler :
  let first := process completed_feedback failing_handlers start in
  let second := process completed_feedback failing_handlers first.1 in
  validate (this start) completed_feedback = true /\
  first.2 = Fulfilled ERROR /\
  second.2 = Fulfilled ERROR /\
  invocations (trace second.1) = [OnPaymentCompleted; OnPaymentCompleted].
Proof. vm_compute. auto. Qed.

Lemma process_twice_witness :
  (process completed_feedback crediting_handlers start).2 = Fulfilled SUCCESS.
Proof.
  refine (proj1 (proj2
    (process_twice completed_feedback crediting_handlers start _ _))).
  - reflexivity.
  - intros cb callback Hreg. vm_compute in Hreg.
    injection Hreg as <- <-. by exists 1%nat.
Defined.

Lemma handler_failure_not_marked_witness :
  processedKeys
    (this (process completed_feedback failing_handlers start).1)
  = processedKeys (this start).
Proof.
  refine (proj1
    (handler_failure_not_marked completed_feedback failing_handlers start
       OnPaymentCompleted insert_fails
       (ErrorObject (new_Error "insert failed")) _ _ _ _));
    reflexivity.
Defined.

Lemma processedKeys_monotone_witness :
  processedKeys (this start)
  ⊆ processedKeys (this (after_call (MarkAsProcessed completed_feedback)
                            start)).
Proof.
  apply (proj1 (proj2 (@processedKeys_monotone nat))
           (MarkAsProcessed completed_feedback) start).
  discriminate.
Defined.

(** ** Helpers and display tables *)

(** The pay states that [getEventType] gives a category of its own. *)
Lemma getEventType_number (feedback : PaymentFeedback) (n : Z) :
  prop feedback "pay_state" = JsNumber n ->
  getEventType feedback ≠ payment_unknown
  <-> n ∈ [1; 4; 8; 9; 10; 32; 64; 70; 71].
Proof.
  intros Hn. unfold getEventType. rewrite Hn. split.
  - intros Hev. destruct (decide (n ∈ [1; 4; 8; 9; 10; 32; 64; 70; 71]))
      as [|Hout]; [done |]. exfalso. apply Hev.
    assert (Hc : ∀ k, k ∈ [1; 4; 8; 9; 10; 32; 64; 70; 71] -> n ≠ k)
      by (intros k Hk ->; contradiction).
    pose proof (Hc 1 ltac:(set_solver)). pose proof (Hc 4 ltac:(set_solver)).
    pose proof (Hc 8 ltac:(set_solver)). pose proof (Hc 9 ltac:(set_solver)).
    pose proof (Hc 10 ltac:(set_solver)). pose proof (Hc 32 ltac:(set_solver)).
    pose proof (Hc 64 ltac:(set_solver)). pose proof (Hc 70 ltac:(set_solver)).
    pose proof (Hc 71 ltac:(set_solver)).
    destruct n as [|p|p]; try reflexivity.
    do 7 (destruct p as [p|p|]; try reflexivity; try lia).
  - intros Hin.
    repeat match goal with
           | H : _ ∈ _ :: _ |- _ => apply elem_of_cons in H as [-> | H]
           | H : _ ∈ [] |- _ => by apply elem_of_nil in H
           end; discriminate.
Qed.

Lemma isPaymentCancelled_getEventType (feedback : PaymentFeedback) :
  isPaymentCancelled feedback = true
  <-> getEventType feedback = payment_cancelled.
Proof.
  unfold isPaymentCancelled, getEventType, strict_eq. simpl.
  rewrite !orb_true_iff, !bool_decide_eq_true. split.
  - intros H. repeat destruct H as [H | H]; by rewrite <- H.
  - destruct (prop feedback "pay_state") as [| |s|n]; try done.
    destruct n as [|p|p]; try done.
    do 7 (try (destruct p as [p|p|]; try done)); intros _; auto 10.
Qed.

(** X1: [isPaymentCompleted] and [isPaymentCancelled] say what
    [getEventType] says: the first holds exactly for the feedbacks
    classified as completed, the second exactly for those classified as
    cancelled, and no feedback is both. *)
Theorem payment_helpers_agree (feedback : PaymentFeedback) :
  (isPaymentCompleted feedback = true
   <-> getEventType feedback = payment_completed) /\
  (isPaymentCancelled feedback = true
   <-> getEventType feedback = payment_cancelled) /\
  ¬ (isPaymentCompleted feedback = true /\
     isPaymentCancelled feedback = true).
Proof.
  split; [apply isPaymentCompleted_getEventType |].
  split; [apply isPaymentCancelled_getEventType |].
  intros [Hc Hx]. apply isPaymentCompleted_getEventType in Hc.
  apply isPaymentCancelled_getEventType in Hx. congruence.
Qed.

Lemma getPayStateString_named (n : Z) :
  getPayStateString n ≠ "알 수 없음"
  <-> n ∈ [1; 4; 8; 9; 10; 32; 64; 70; 71].
Proof.
  unfold getPayStateString. split.
  - intros Hname.
    destruct (decide (n ∈ [1; 4; 8; 9; 10; 32; 64; 70; 71]))
      as [|Hout]; [done |]. exfalso. apply Hname.
    assert (Hnone : pay_state_names !! n = None).
    { apply not_elem_of_list_to_map. exact Hout. }
    by rewrite Hnone.
  - intros Hin.
    repeat match goal with
           | H : _ ∈ _ :: _ |- _ => apply elem_of_cons in H as [-> | H]
           | H : _ ∈ [] |- _ => by apply elem_of_nil in H
           end; vm_compute; discriminate.
Qed.

(** X2: the display table and the classifier know the same pay states:
    [getPayStateString] has a name for an integer pay state exactly when
    [getEventType] classifies it as something other than unknown, and
    the name is one of the three cancellation names exactly when
    [isPaymentCancelled] holds. *)
Theorem pay_state_table_matches_classifier (feedback : PaymentFeedback)
    (n : Z) :
  prop feedback "pay_state" = JsNumber n ->
  (getPayStateString n ≠ "알 수 없음"
   <-> getEventType feedback ≠ payment_unknown) /\
  (getPayStateString n ∈ ["요청취소"; "승인취소"; "부분취소"]
   <-> isPaymentCancelled feedback = true).
Proof.
  intros Hn. split.
  - by rewrite getPayStateString_named, (getEventType_number feedback n Hn).
  - rewrite isPaymentCancelled_getEventType.
    destruct (decide (n ∈ [1; 4; 8; 9; 10; 32; 64; 70; 71])) as [Hin | Hout].
    + unfold getEventType. rewrite Hn.
      repeat match goal with
             | H : _ ∈ _ :: _ |- _ => apply elem_of_cons in H as [-> | H]
             | H : _ ∈ [] |- _ => by apply elem_of_nil in H
             end; vm_compute; split; intros H;
        try reflexivity; try discriminate;
        try (repeat (apply elem_of_cons in H as [H | H]; [discriminate |]);
             by apply elem_of_nil in H);
        set_solver.
    + assert (Hname : getPayStateString n = "알 수 없음").
      { destruct (decide (getPayStateString n = "알 수 없음")); [done |].
        by apply getPayStateString_named in n0. }
      assert (Hev : getEventType feedback = payment_unknown).
      { destruct (decide (getEventType feedback = payment_unknown));
          [done |]. by apply (getEventType_number feedback n Hn) in n0. }
      rewrite Hname, Hev. split; [| discriminate].
      intros H. repeat (apply elem_of_cons in H as [H | H]; [discriminate |]).
      by apply elem_of_nil in H.
Qed.

Lemma pay_state_table_matches_classifier_witness :
  getPayStateString 70 ∈ ["요청취소"; "승인취소"; "부분취소"]
  <-> isPaymentCancelled (<["pay_state" := JsNumber 70]> ∅) = true.
Proof.
  refine (proj2 (pay_state_table_matches_classifier
                   (<["pay_state" := JsNumber 70]> ∅) 70 _)).
  reflexivity.
Defined.

(** ** Payment checks *)

Lemma pretty_N_go_app x s t : pretty_N_go x s +:+ t = pretty_N_go x (s +:+ t).
Proof.
  revert s. induction (N.lt_wf_0 x) as [x _ IH]; intros s.
  assert (x = 0 ∨ 0 < x)%N as [-> | Hx] by lia.
  - by rewrite !pretty_N_go_0.
  - rewrite (pretty_N_go_step x s), (pretty_N_go_step x (s +:+ t)) by done.
    rewrite IH by (by apply N.div_lt). reflexivity.
Qed.

Lemma decimal_value_pretty_N_char d :
  (d < 10)%N -> decimal_value (pretty_N_char d) = Some d.
Proof.
  intros Hd.
  assert (d = 0 ∨ d = 1 ∨ d = 2 ∨ d = 3 ∨ d = 4 ∨ d = 5 ∨ d = 6 ∨ d = 7
          ∨ d = 8 ∨ d = 9)%N as H by lia.
  repeat destruct H as [-> | H]; try subst d; reflexivity.
Qed.

(** The digits that [pretty_N_go] writes are read back most significant
    first. *)
Lemma leading_digits_pretty_N_go x s :
  fold_left (fun a d => (a * 10 + d)%N)
    (leading_digits decimal_value (pretty_N_go x s)) 0%N
  = fold_left (fun a d => (a * 10 + d)%N)
      (leading_digits decimal_value s) x.
Proof.
  revert s. induction (N.lt_wf_0 x) as [x _ IH]; intros s.
  assert (x = 0 ∨ 0 < x)%N as [-> | Hx] by lia.
  - by rewrite pretty_N_go_0.
  - rewrite pretty_N_go_step by done. rewrite IH by (by apply N.div_lt).
    simpl. rewrite decimal_value_pretty_N_char by (by apply N.mod_lt).
    simpl. f_equal. rewrite (N.div_mod x 10) at 3 by done. lia.
Qed.

Lemma pretty_N_go_head x s :
  (0 < x)%N ->
  ∃ d r, (0 < d < 10)%N /\ pretty_N_go x s = String (pretty_N_char d) r.
Proof.
  revert s. induction (N.lt_wf_0 x) as [x _ IH]; intros s Hx.
  rewrite pretty_N_go_step by done.
  destruct (N.eq_dec (x `div` 10)%N 0%N) as [H0 | Hpos%N.neq_0_lt_0].
  - rewrite H0, pretty_N_go_0. exists (x `mod` 10)%N, s. split; [| done].
    apply N.div_small_iff in H0; [| done].
    rewrite N.mod_small by done. lia.
  - apply IH; [by apply N.div_lt | done].
Qed.

(** A string that starts with a digit from 1 to 9 is parsed in base ten
    from its first character. *)
Lemma parseInt_nonzero_digit d r :
  (0 < d < 10)%N ->
  parseInt (String (pretty_N_char d) r)
  = match leading_digits decimal_value (String (pretty_N_char d) r) with
    | [] => NaN
    | digits =>
        if (number_of 10 digits <=? 2 ^ 53)%N
        then Finite (1 * Z.of_N (number_of 10 digits))
        else Beyond
    end.
Proof.
  intros Hd.
  assert (d = 1 ∨ d = 2 ∨ d = 3 ∨ d = 4 ∨ d = 5 ∨ d = 6 ∨ d = 7
          ∨ d = 8 ∨ d = 9)%N as H by lia.
  repeat destruct H as [-> | H]; try subst d;
    (destruct r as [|b [|c r]]; reflexivity).
Qed.

Lemma parseInt_decimal (n : N) (suffix : string) :
  (0 < n)%N -> (n <= 2 ^ 53)%N ->
  leading_digits decimal_value suffix = [] ->
  parseInt (pretty n +:+ suffix) = Finite (Z.of_N n).
Proof.
  intros Hpos Hmax Hsuffix.
  unfold pretty, pretty_N. rewrite decide_False by lia.
  rewrite pretty_N_go_app. change ("" +:+ suffix) with suffix.
  destruct (pretty_N_go_head n suffix Hpos) as (d & r & Hd & Hhead).
  pose proof (leading_digits_pretty_N_go n suffix) as Hval.
  rewrite Hsuffix in Hval. simpl in Hval.
  rewrite Hhead in Hval |- *. rewrite (parseInt_nonzero_digit d r Hd).
  destruct (leading_digits decimal_value (String (pretty_N_char d) r))
    as [|d0 ds] eqn:Hld.
  { simpl in Hld. rewrite decimal_value_pretty_N_char in Hld by lia.
    discriminate. }
  unfold number_of. rewrite Hval.
  apply N.leb_le in Hmax. rewrite Hmax. f_equal. lia.
Qed.

(** X3: the amount check reads the price the way [parseInt] does: a
    price that is the decimal digits of a positive amount of at most
    2^53, followed by anything that does not start with a digit (nothing,
    a currency sign, a decimal part), passes the check for that amount
    and for no other. *)
Theorem validatePaymentAmount_lenient (feedback : PaymentFeedback) (n : N)
    (suffix : string) (expectedAmount : Z) :
  prop feedback "price" = JsString (pretty n +:+ suffix) ->
  (0 < n)%N -> (n <= 2 ^ 53)%N ->
  leading_digits decimal_value suffix = [] ->
  validatePaymentAmount feedback expectedAmount
  = Some (bool_decide (Z.of_N n = expectedAmount)).
Proof.
  intros Hprice Hpos Hmax Hsuffix. unfold validatePaymentAmount.
  rewrite Hprice. simpl ToString.
  by rewrite (parseInt_decimal n suffix Hpos Hmax Hsuffix).
Qed.

Lemma validatePaymentAmount_lenient_witness :
  validatePaymentAmount (<["price" := JsString "9900.75"]> ∅) 9900
  = Some true.
Proof.
  apply (validatePaymentAmount_lenient
           (<["price" := JsString "9900.75"]> ∅) 9900%N ".75" 9900);
    [reflexivity | lia | vm_compute; discriminate | reflexivity].
Defined.

Lemma parseInt_letter c r :
  (65 <= N_of_ascii c <= 90 ∨ 97 <= N_of_ascii c <= 122)%N ->
  parseInt (String c r) = NaN.
Proof.
  intros Hc.
  destruct c as [[] [] [] [] [] [] [] []];
    try (exfalso; vm_compute in Hc; destruct Hc as [[H1 H2] | [H1 H2]];
         (by apply H1) || (by apply H2));
    (destruct r as [|b [|c r]]; reflexivity).
Qed.

(** X4: a price that holds no number passes the amount check for no
    amount: a missing price, a [null] price, the empty string and any
    price that starts with a letter. *)
Theorem validatePaymentAmount_not_a_number (feedback : PaymentFeedback)
    (expectedAmount : Z) :
  prop feedback "price" = JsUndefined ∨
  prop feedback "price" = JsNull ∨
  prop feedback "price" = JsString "" ∨
  (∃ c r, prop feedback "price" = JsString (String c r) /\
          (65 <= N_of_ascii c <= 90 ∨ 97 <= N_of_ascii c <= 122)%N) ->
  validatePaymentAmount feedback expectedAmount = Some false.
Proof.
  unfold validatePaymentAmount.
  intros [-> | [-> | [-> | (c & r & -> & Hc)]]]; try reflexivity.
  simpl ToString. by rewrite (parseInt_letter c r Hc).
Qed.

Lemma validatePaymentAmount_not_a_number_witness :
  validatePaymentAmount (<["mul_no" := JsString "12345"]> ∅) 9900
  = Some false.
Proof.
  apply (validatePaymentAmount_not_a_number
           (<["mul_no" := JsString "12345"]> ∅) 9900).
  left. reflexivity.
Defined.

(** X5: what the request handler builds from a posted body is never a
    completed payment for this library: whatever the body says,
    [isPaymentCompleted] and [isPaymentCancelled] are false on it,
    [extractPaymentInfo] reports neither, and [verifyPayment] fails for
    every amount, because [pay_state] is a string there and the checks
    compare it with numbers by [===]. *)
Theorem posted_feedback_never_verified (body : gmap string string)
    (expectedAmount : Z) :
  let feedback := parseWebhookRequest body in
  isPaymentCompleted feedback = false /\
  isPaymentCancelled feedback = false /\
  isCompleted (extractPaymentInfo feedback) = false /\
  isCancelled (extractPaymentInfo feedback) = false /\
  verifyPayment feedback expectedAmount = Some false.
Proof.
  intros feedback.
  assert (Hc : isPaymentCompleted feedback = false).
  { apply not_true_is_false. rewrite isPaymentCompleted_getEventType.
    unfold feedback. by rewrite parseWebhookRequest_unclassified. }
  assert (Hx : isPaymentCancelled feedback = false).
  { apply not_true_is_false. rewrite isPaymentCancelled_getEventType.
    unfold feedback. by rewrite parseWebhookRequest_unclassified. }
  unfold verifyPayment, extractPaymentInfo. simpl. by rewrite Hc, Hx.
Qed.

(** ** More on the webhook processor *)

Section ProcessorExtras.

Context {W : Type}.
Implicit Types (h : @Heap W) (handlers : @WebhookHandler W).
Implicit Types (feedback : PaymentFeedback).

Lemma process_catch_effects feedback handlers error h :
  ∃ effects,
    trace (process_catch feedback handlers error h).1
    = (trace h ++ effects)%list /\
    invocations effects = [].
Proof.
  destruct (onError handlers) as [callback|] eqn:Hreg.
  - rewrite (process_catch_registered _ _ _ _ callback Hreg). by eexists.
  - rewrite (process_catch_unregistered _ _ _ _ Hreg). by eexists.
Qed.

(** [process] only adds to the trace, and adds no call of an event
    callback when none is registered for the event of the feedback. *)
Lemma process_effects feedback handlers h :
  ∃ effects,
    trace (process feedback handlers h).1 = (trace h ++ effects)%list /\
    (handler_for handlers (getEventType feedback) = None ->
     invocations effects = []).
Proof.
  destruct (validate (this h) feedback) eqn:Hv.
  - destruct (isDuplicate (this h) feedback) eqn:Hd.
    + rewrite (process_duplicate _ _ _ Hv Hd). by eexists.
    + rewrite (process_fresh _ _ _ Hv Hd).
      destruct (handler_for handlers (getEventType feedback))
        as [[cb callback]|].
      * simpl. destruct (callback feedback (world h)).2.
        -- by eexists.
        -- destruct (process_catch_effects feedback handlers e
             {| this := this h; world := (callback feedback (world h)).1;
                trace := (trace h ++ [Invoke cb feedback])%list |})
             as (effects & Ht & _).
           simpl in Ht. rewrite <- app_assoc in Ht. by eexists.
      * simpl. destruct (getEventType feedback);
          try (exists []; by rewrite app_nil_r). by eexists.
  - rewrite (process_invalid _ _ _ Hv).
    destruct (process_catch_effects feedback handlers
                (ErrorObject (new_Error "Invalid webhook credentials")) h)
      as (effects & Ht & Hinv).
    by exists effects.
Qed.

(** X7: [process] contains every failure but one.  When [onError] is
    absent or cannot throw, [process] returns; when [process] throws,
    what it throws is what [onError] threw; and a call that does not
    return ["SUCCESS"] leaves the processor, and so the processed keys,
    as they were. *)
Theorem process_contains_errors feedback handlers h :
  (onError_quiet handlers ->
   ∃ result, (process feedback handlers h).2 = Fulfilled result) /\
  (∀ x, (process feedback handlers h).2 = Rejected x ->
        ∃ callback error w,
          onError handlers = Some callback /\
          (callback error (Some feedback) w).2 = Rejected x) /\
  ((process feedback handlers h).2 ≠ Fulfilled SUCCESS ->
   this (process feedback handlers h).1 = this h).
Proof.
  split; [apply process_settles |].
  split; [apply process_rejected_by_onError |].
  destruct (validate (this h) feedback) eqn:Hv.
  - destruct (isDuplicate (this h) feedback) eqn:Hd.
    + by rewrite (process_duplicate _ _ _ Hv Hd).
    + rewrite (process_fresh _ _ _ Hv Hd).
      destruct (handler_for handlers (getEventType feedback))
        as [[cb callback]|]; [| done]. simpl.
      destruct (callback feedback (world h)).2; [done |]. intros _.
      by rewrite (proj1 (process_catch_frame _ _ _ _)).
  - rewrite (process_invalid _ _ _ Hv). intros _.
    by rewrite (proj1 (process_catch_frame _ _ _ _)).
Qed.

(** X8: the answers of the request handler.  Any method but POST gets
    405 and a POST whose content type does not contain
    [application/x-www-form-urlencoded] (or has none) gets 400, both with
    their fixed text as [text/plain;charset=UTF-8] and without touching
    the processor, the host or the log; any other request gets 200 with
    body [SUCCESS] or [ERROR] as [text/plain], as long as [onError] is
    absent or cannot throw. *)
Theorem webhookHandler_responses handlers req h :
  (method req ≠ "POST" ->
   webhookHandler handlers req h
   = (h, Fulfilled {| body := "Method not allowed"; status := 405;
                      response_content_type := Some "text/plain;charset=UTF-8" |})) /\
  (method req = "POST" ->
   from_option (fun s => includes s "application/x-www-form-urlencoded")
     false (content_type req) = false ->
   webhookHandler handlers req h
   = (h, Fulfilled {| body := "Invalid content type"; status := 400;
                      response_content_type := Some "text/plain;charset=UTF-8" |})) /\
  (method req = "POST" ->
   from_option (fun s => includes s "application/x-www-form-urlencoded")
     false (content_type req) = true ->
   onError_quiet handlers ->
   ∃ result,
     (webhookHandler handlers req h).2
     = Fulfilled {| body := result_text result; status := 200;
                    response_content_type := Some "text/plain" |}).
Proof.
  split; [apply webhookHandler_not_POST |].
  split; [apply webhookHandler_content_type |].
  apply webhookHandler_accepted.
Qed.

Lemma webhook_catch_effects handlers error h :
  ∃ effects,
    trace (webhook_catch handlers error h).1 = (trace h ++ effects)%list /\
    invocations effects = [].
Proof.
  async_steps. simpl.
  destruct (onError handlers) as [callback|]; simpl.
  - destruct (callback _ _ _) as [w [[]|x]]; simpl;
      rewrite <- app_assoc; by eexists.
  - by eexists.
Qed.

(** X9: the request handler never calls an event callback.  The feedback
    it hands to [process] has a string for [pay_state], which no [case]
    of [getEventType] matches, so whatever is posted and whatever is
    registered, [onPaymentRequested], [onPaymentCompleted],
    [onPaymentCancelled] and [onPaymentWaiting] are not called. *)
Theorem webhookHandler_never_dispatches handlers req h :
  invocations (since h (webhookHandler handlers req h).1) = [].
Proof.
  destruct (decide (method req = "POST")) as [Hm | Hm];
    [| rewrite (webhookHandler_not_POST _ _ _ Hm); simpl;
       unfold since; by rewrite drop_all].
  destruct (from_option
              (fun s => includes s "application/x-www-form-urlencoded")
              false (content_type req)) eqn:Hct;
    [| rewrite (webhookHandler_content_type _ _ _ Hm Hct); simpl;
       unfold since; by rewrite drop_all].
  unfold webhookHandler, try_catch_async, mbind, Async_bind, resolve, await.
  rewrite bool_decide_eq_true_2 by done. simpl. rewrite Hct. simpl.
  destruct (text req) as [t | x].
  - destruct (process_effects
                (parseWebhookRequest (collect (new_URLSearchParams t)))
                handlers h) as (effects & Ht & Hinv).
    rewrite parseWebhookRequest_unclassified in Hinv.
    specialize (Hinv eq_refl).
    destruct (process _ handlers h) as [h1 [r | x]]; simpl in *.
    + by erewrite since_app by exact Ht.
    + destruct (webhook_catch_effects handlers x h1) as (more & Ht' & Hinv').
      rewrite Ht, <- app_assoc in Ht'. erewrite since_app by exact Ht'.
      by rewrite invocations_app, Hinv, Hinv'.
  - destruct (webhook_catch_effects handlers x h) as (more & Ht' & Hinv').
    by erewrite since_app by exact Ht'.
Qed.

(** X10: [process] changes the duplicate status of no feedback with
    another key: whatever is processed, a feedback whose key differs is
    a duplicate afterwards exactly if it was one before. *)
Theorem process_frame_other_keys feedback handlers h (other : PaymentFeedback) :
  generateFeedbackKey other ≠ generateFeedbackKey feedback ->
  isDuplicate (this (process feedback handlers h).1) other
  = isDuplicate (this h) other.
Proof.
  intros Hkey.
  assert (Hmark : isDuplicate (markAsProcessed (this h) feedback) other
                  = isDuplicate (this h) other).
  { unfold isDuplicate, markAsProcessed. simpl.
    apply bool_decide_ext. rewrite elem_of_union, elem_of_singleton.
    split; [intros [? | ?]; [contradiction | done] | by right]. }
  destruct (validate (this h) feedback) eqn:Hv.
  - destruct (isDuplicate (this h) feedback) eqn:Hd.
    + by rewrite (process_duplicate _ _ _ Hv Hd).
    + rewrite (process_fresh _ _ _ Hv Hd).
      destruct (handler_for handlers (getEventType feedback))
        as [[cb callback]|]; [| done]. simpl.
      destruct (callback feedback (world h)).2; [done |].
      by rewrite (proj1 (process_catch_frame _ _ _ _)).
  - rewrite (process_invalid _ _ _ Hv).
    by rewrite (proj1 (process_catch_frame _ _ _ _)).
Qed.

(** X11: a delivery for which no handler is registered is consumed.  A
    valid, fresh feedback whose event has no registered handler (an
    unknown pay state among them) is answered ["SUCCESS"] without any
    callback and without touching the host, and its key is recorded: a
    later delivery of it is skipped even when a handler has been
    registered in the meantime. *)
Theorem process_unhandled_consumed feedback handlers h :
  validate (this h) feedback = true ->
  isDuplicate (this h) feedback = false ->
  handler_for handlers (getEventType feedback) = None ->
  let h1 := (process feedback handlers h).1 in
  (process feedback handlers h).2 = Fulfilled SUCCESS /\
  world h1 = world h /\
  invocations (since h h1) = [] /\
  error_reports (since h h1) = [] /\
  (∀ (later : @WebhookHandler W) h2,
     this h2 = this h1 ->
     (process feedback later h2).2 = Fulfilled SUCCESS /\
     world (process feedback later h2).1 = world h2 /\
     invocations (since h2 (process feedback later h2).1) = []).
Proof.
  intros Hv Hd Hnone h1. subst h1.
  rewrite (process_fresh _ _ _ Hv Hd), Hnone. simpl.
  split; [done |]. split; [done |].
  assert (Heff : ∃ effects,
    match getEventType feedback with
    | payment_unknown =>
        (trace h ++ [ConsoleWarn "Unknown payment state:"
                       (prop feedback "pay_state")])%list
    | _ => trace h
    end = (trace h ++ effects)%list /\
    invocations effects = [] /\ error_reports effects = []).
  { destruct (getEventType feedback);
      try (exists []; by rewrite app_nil_r). by eexists. }
  destruct Heff as (effects & Ht & Hinv & Herr).
  split; [by erewrite since_app by exact Ht |].
  split; [by erewrite since_app by exact Ht |].
  intros later h2 Hh2. simpl in Hh2.
  assert (Hv2 : validate (this h2) feedback = true).
  { unfold validate in *. by rewrite Hh2. }
  assert (Hd2 : isDuplicate (this h2) feedback = true).
  { unfold isDuplicate. rewrite Hh2. simpl.
    apply bool_decide_eq_true_2. set_solver. }
  rewrite (process_duplicate _ _ _ Hv2 Hd2). simpl.
  by erewrite since_app by done.
Qed.

(** X12: clearing the processed keys reopens every delivery.  After
    [clearProcessedKeys], a valid feedback that was processed before is
    dispatched to its registered handler again. *)
Theorem clear_then_redeliver feedback handlers h cb callback :
  validate (this h) feedback = true ->
  handler_for handlers (getEventType feedback) = Some (cb, callback) ->
  let cleared := after_call ClearProcessedKeys h in
  isDuplicate (this cleared) feedback = false /\
  Invoke cb feedback ∈ since cleared (process feedback handlers cleared).1.
Proof.
  intros Hv Hreg cleared.
  assert (Hd : isDuplicate (this cleared) feedback = false).
  { unfold isDuplicate. simpl. apply bool_decide_eq_false_2. set_solver. }
  split; [done |].
  assert (Hv' : validate (this cleared) feedback = true) by done.
  rewrite (process_fresh _ _ _ Hv' Hd), Hreg. simpl.
  destruct (callback feedback (world h)).2.
  - simpl. erewrite since_app by done. set_solver.
  - destruct (process_catch_effects feedback handlers e
      {| this := clearProcessedKeys (this h);
         world := (callback feedback (world h)).1;
         trace := (trace h ++ [Invoke cb feedback])%list |})
      as (effects & Ht & _).
    simpl in Ht. rewrite <- app_assoc in Ht.
    erewrite since_app by exact Ht. set_solver.
Qed.

End ProcessorExtras.

(** ** More on the API caller *)

Section ClientExtras.

Variable entries : gmap string JsValue -> list (string * JsValue).
Hypothesis entries_own : ∀ params, entries params ≡ₚ map_to_list params.



End ClientExtras.


Section ErrorExtras.

Variable entries : gmap string JsValue -> list (string * JsValue).
Variable fetch : string -> FetchInit -> Completion FetchResponse.

Lemma isPayAppError_createError msg c :
  isPayAppError (ErrorObject (createError msg c)) = true.
Proof. reflexivity. Qed.

(** X14: [isPayAppError] recognises every error that [callAPI] makes.  A
    rejection of [callAPI] that [isPayAppError] does not accept is an
    error of the transport itself, one that already had a [code], passed
    on as it was thrown by [fetch] or by reading the response text. *)
Theorem callAPI_rejection_recognised (this : PayAppConfig)
    (params : gmap string JsValue) (x : Exception) :
  callAPI entries fetch this params = Rejected x ->
  isPayAppError x = false ->
  coded x /\
  (fetch (apiUrl this)
     {| init_method := "POST";
        init_content_type := "application/x-www-form-urlencoded";
        init_body := URLSearchParams_toString (formData entries params) |}
   = Rejected x ∨
   ∃ r, fetch (apiUrl this)
          {| init_method := "POST";
             init_content_type := "application/x-www-form-urlencoded";
             init_body := URLSearchParams_toString (formData entries params) |}
        = Fulfilled r /\ ok r = true /\ response_text r = Rejected x).
Proof.
  intros Hrej Hnot.
  split; [by apply (callAPI_rejection_coded entries fetch this params) |].
  assert (Hthrown : ∀ y,
    match y with
    | ErrorObject e =>
        match code e with
        | Some _ => Rejected y
        | None => Rejected (ErrorObject (createError (message e) "UNKNOWN"))
        end
    | NonError _ =>
        Rejected (ErrorObject (createError "Unknown error" "UNKNOWN"))
    end = @Rejected (gmap string string) x -> y = x).
  { intros [e | v]; [destruct (code e) |]; intros [= <-]; try done;
      by rewrite isPayAppError_createError in Hnot. }
  destruct (sent_cases entries fetch this params)
    as [[y Hs] | [(r & Hs & Hok) | [(r & y & Hs & Hok & Ht) |
                                     (r & t & Hs & Hok & Ht)]]].
  - rewrite (callAPI_exception entries fetch this params y) in Hrej by eauto.
    apply Hthrown in Hrej as ->. by left.
  - rewrite (callAPI_not_ok entries fetch this params r Hs Hok) in Hrej.
    injection Hrej as <-. by rewrite isPayAppError_createError in Hnot.
  - rewrite (callAPI_exception entries fetch this params y) in Hrej
      by eauto 6.
    apply Hthrown in Hrej as ->. right. by exists r.
  - destruct (decide (parseResponse t !! "state" = Some "0")) as [H0 | H0].
    + rewrite (callAPI_failure_state entries fetch this params r t
                 Hs Hok Ht H0) in Hrej.
      injection Hrej as <-. by rewrite isPayAppError_createError in Hnot.
    + by rewrite (callAPI_success entries fetch this params r t
                    Hs Hok Ht H0) in Hrej.
Qed.

(** X15: the message hook never shows what the provider said.  When the
    provider answers with [state] ["0"], [callAPI] throws an error that
    carries the provider's [errorMessage], but its code is ["0"], which
    is truthy and no key of [PAYAPP_ERROR_MESSAGES]: for it
    [usePayAppErrorMessage] returns the fixed text for an unknown error.
    The same holds for an error wrapped with code ["UNKNOWN"]. *)
Theorem usePayAppErrorMessage_provider_failure (this : PayAppConfig)
    (params : gmap string JsValue) (r : FetchResponse) (t : string) :
  fetch (apiUrl this)
    {| init_method := "POST";
       init_content_type := "application/x-www-form-urlencoded";
       init_body := URLSearchParams_toString (formData entries params) |}
  = Fulfilled r ->
  ok r = true ->
  response_text r = Fulfilled t ->
  parseResponse t !! "state" = Some "0" ->
  ∃ e, callAPI entries fetch this params = Rejected (ErrorObject e) /\
       errorMessage e
       = Some (or_default (parseResponse t !! "errorMessage")
                 "PayApp API error") /\
       usePayAppErrorMessage (Some e)
       = Some (Text "알 수 없는 오류가 발생했습니다.") /\
       ∀ msg, usePayAppErrorMessage (Some (createError msg "UNKNOWN"))
              = Some (Text "알 수 없는 오류가 발생했습니다.").
Proof.
  intros Hs Hok Ht H0. eexists. split.
  - by apply (callAPI_failure_state entries fetch this params r t).
  - repeat split.
Qed.

End ErrorExtras.

Lemma callAPI_rejection_recognised_witness :
  coded (ErrorObject refused).
Proof.
  refine (proj1 (callAPI_rejection_recognised map_to_list
    (fun _ _ => Rejected (ErrorObject refused))
    (new_PayAppClient merchant false) (<["cmd" := JsString "payrequest"]> ∅)
    (ErrorObject refused) _ _)); reflexivity.
Defined.

Lemma usePayAppErrorMessage_provider_failure_witness :
  ∃ e,
    callAPI map_to_list
      (fun _ _ => Fulfilled
         {| ok := true; response_status := 200;
            response_text := Fulfilled "state=0&errorMessage=card+declined" |})
      (new_PayAppClient merchant false) ∅
    = Rejected (ErrorObject e) /\
    errorMessage e = Some "card declined" /\
    usePayAppErrorMessage (Some e)
    = Some (Text "알 수 없는 오류가 발생했습니다.").
Proof.
  destruct (usePayAppErrorMessage_provider_failure map_to_list
    (fun _ _ => Fulfilled
       {| ok := true; response_status := 200;
          response_text := Fulfilled "state=0&errorMessage=card+declined" |})
    (new_PayAppClient merchant false) ∅
    {| ok := true; response_status := 200;
       response_text := Fulfilled "state=0&errorMessage=card+declined" |}
    "state=0&errorMessage=card+declined")
    as (e & Hrun & Hmsg & Hshown & _); try reflexivity.
  exists e. split; [exact Hrun |]. split; [| exact Hshown].
  rewrite Hmsg. reflexivity.
Defined.

(** ** The browser SDK helpers *)

Section SdkExtras.

Variable entries : gmap string JsValue -> list (string * JsValue).
Hypothesis entries_own : ∀ params, entries params ≡ₚ map_to_list params.

Lemma set_params_calls params window calls :
  PayApp window = Some calls ->
  PayApp (set_params entries params window)
  = Some (calls ++ ((fun kv => setParam kv.1 kv.2) <$> entries params))%list.
Proof.
  unfold set_params. revert window calls.
  induction (entries params) as [|kv l IH]; intros window calls Hw; simpl.
  - by rewrite app_nil_r.
  - rewrite (IH _ (calls ++ [setParam kv.1 kv.2])%list).
    + by rewrite <- app_assoc.
    + unfold sdk_call. by rewrite Hw.
Qed.

(** X16: [requestPaymentWithSDK] and the SDK.  Without the SDK global
    it throws and touches nothing.  With it, the SDK receives one
    [setParam] for every own property of the parameters, those holding
    [null] or [undefined] too, and then, last, exactly one [payrequest];
    earlier calls are kept. *)
Theorem requestPaymentWithSDK_calls (params : gmap string JsValue)
    (window : Window) :
  (PayApp window = None ->
   requestPaymentWithSDK entries params window
   = (window, Rejected (ErrorObject (new_Error "PayApp SDK not loaded")))) /\
  (∀ calls, PayApp window = Some calls ->
     ∃ sets,
       requestPaymentWithSDK entries params window
       = ({| PayApp := Some (calls ++ sets ++ [payrequest])%list |},
          Fulfilled tt) /\
       sets ≡ₚ (fun kv => setParam kv.1 kv.2) <$> map_to_list params /\
       payrequest ∉ sets).
Proof.
  unfold requestPaymentWithSDK. split.
  - by intros ->.
  - intros calls Hw. rewrite Hw.
    exists ((fun kv => setParam kv.1 kv.2) <$> entries params).
    split; [| split].
    + unfold sdk_call. rewrite (set_params_calls params window calls Hw).
      simpl. by rewrite <- app_assoc.
    + by rewrite entries_own.
    + intros Hin. apply list_elem_of_fmap in Hin as (kv & [=] & _).
Qed.

End SdkExtras.

Lemma requestPaymentWithSDK_calls_witness :
  requestPaymentWithSDK map_to_list (<["price" := JsNumber 9900]> ∅)
    {| PayApp := None |}
  = ({| PayApp := None |},
     Rejected (ErrorObject (new_Error "PayApp SDK not loaded"))).
Proof.
  refine (proj1 (requestPaymentWithSDK_calls map_to_list
                   (fun _ => reflexivity _)
                   (<["price" := JsNumber 9900]> ∅) {| PayApp := None |}) _).
  reflexivity.
Defined.

(** ** The hooks *)

Section HookExtras.

Context {W : Type}.
Variable entries : gmap string JsValue -> list (string * JsValue).
Variable fetch : string -> FetchInit -> Completion FetchResponse.


(** X18: the [registerBill] callback of [usePayAppBilling].  When the
    API call succeeds with no [encBill] in the response, or an empty one,
    the callback returns it quietly: [onSuccess] is not called, the
    component is untouched, the error cell is empty and the loading
    flag is down.  With an [encBill] and an [onSuccess] that returns,
    [onSuccess] runs once on it and the callback returns the
    [encBill]. *)
Theorem hook_registerBill_contract (options : @Hooks.BillingOptions W)
    (params : gmap string JsValue) (st : Hooks.ActionState) (w : W)
    (response : gmap string string) :
  registerBill entries fetch
    (createPayAppClient (Hooks.billing_credentials options) false) params
  = Fulfilled response ->
  let out := Hooks.registerBill entries fetch options params (st, w) in
  (response !! "encBill" = None ∨ response !! "encBill" = Some "" ->
   out = (({| Hooks.isLoading := false; Hooks.error := None |}, w),
          Fulfilled (response !! "encBill"))) /\
  (∀ encBill f w',
     response !! "encBill" = Some encBill -> encBill ≠ "" ->
     Hooks.billing_onSuccess options = Some f ->
     f encBill w = (w', Fulfilled tt) ->
     out = (({| Hooks.isLoading := false; Hooks.error := None |}, w'),
            Fulfilled (Some encBill))).
Proof.
  intros Hapi out. subst out.
  unfold Hooks.registerBill, Hooks.try_catch_finally, Hooks.bind,
    Hooks.setIsLoading, Hooks.clearError, Hooks.setError, Hooks.set,
    Hooks.await, Hooks.call, Hooks.throw, Hooks.ret.
  simpl. rewrite Hapi. simpl. split.
  - intros [-> | ->]; reflexivity.
  - intros encBill f w' -> Hne -> Hf.
    rewrite bool_decide_eq_false_2 by done. simpl. by rewrite Hf.
Qed.

(** X19: the [requestPayment] callback of [usePayApp].  While the hook
    has not seen the SDK load, the callback does not reach the SDK at
    all: [window] is untouched, the error cell holds ['PayApp SDK is not
    loaded'], and the callback returns unless [onError] throws.  Once
    the flag is up and the SDK is there, the error cell is cleared and
    the SDK gets its [payrequest]. *)
Theorem hook_requestPayment_contract (options : @Hooks.PayAppOptions W)
    (params : gmap string JsValue) (st : Hooks.PayAppState)
    (window : Window) (w : W) :
  let out :=
    Hooks.requestPayment entries options params ((st, window), w) in
  (Hooks.isSDKLoaded st = false ->
   out.1.1.2 = window /\
   Hooks.sdk_error out.1.1.1
   = Some (ErrorObject (new_Error "PayApp SDK is not loaded")) /\
   (Hooks.payapp_onError options = None -> out.2 = Fulfilled tt)) /\
  (Hooks.isSDKLoaded st = true ->
   ∀ calls, PayApp window = Some calls ->
     Hooks.sdk_error out.1.1.1 = None /\
     out.2 = Fulfilled tt /\
     ∃ sets, PayApp out.1.1.2 = Some (calls ++ sets ++ [payrequest])%list) /\
  (Hooks.isSDKLoaded st = true ->
   PayApp window = None ->
   out.1.1.2 = window /\
   Hooks.sdk_error out.1.1.1
   = Some (ErrorObject (new_Error "PayApp SDK not loaded"))).
Proof.
  intros out. subst out.
  unfold Hooks.requestPayment, Hooks.try_catch, Hooks.bind, Hooks.set,
    Hooks.call.
  simpl. split; [| split].
  - intros ->. simpl.
    destruct (Hooks.payapp_onError options) as [g|]; simpl.
    + destruct (g _ w) as [w2 r]. simpl. repeat split. intros [=].
    + repeat split.
  - intros -> calls Hw. simpl. unfold requestPaymentWithSDK. rewrite Hw.
    simpl. repeat split. unfold sdk_call.
    rewrite (set_params_calls entries params window calls Hw). simpl.
    eexists. by rewrite <- app_assoc.
  - intros -> Hw. simpl. unfold requestPaymentWithSDK. rewrite Hw. simpl.
    destruct (Hooks.payapp_onError options) as [g|]; simpl.
    + destruct (g _ w) as [w2 r]. simpl. repeat split.
    + repeat split.
Qed.

End HookExtras.

(** ** Response parsing and the dedup key, continued *)

(** X20: [parseResponse] keeps, for each name but [__proto__], the value
    of the last pair of that name that [new URLSearchParams(text)]
    yields, has no entry for a name that no pair has, and never has an
    entry named [__proto__]. *)
Theorem parseResponse_last_wins (text : string) :
  parseResponse text !! "__proto__" = None /\
  (∀ before after k v,
     new_URLSearchParams text = (before ++ (k, v) :: after)%list ->
     k ∉ after.*1 -> k ≠ "__proto__" ->
     parseResponse text !! k = Some v) /\
  (∀ k, k ∉ (new_URLSearchParams text).*1 -> parseResponse text !! k = None).
Proof.
  unfold parseResponse. split; [| split].
  - by rewrite collect_lookup.
  - intros before after k v -> Hafter Hk. rewrite collect_lookup.
    rewrite bool_decide_eq_false_2 by done.
    rewrite reverse_app, reverse_cons, <- app_assoc.
    rewrite list_to_map_app, lookup_union_r.
    + simpl. by rewrite lookup_insert_eq.
    + apply not_elem_of_list_to_map.
      by rewrite fmap_reverse, elem_of_reverse.
  - intros k Hnone. rewrite collect_lookup. case_bool_decide; [done |].
    apply not_elem_of_list_to_map.
    by rewrite fmap_reverse, elem_of_reverse.
Qed.

Lemma parseResponse_last_wins_witness :
  parseResponse "state=1&memo=%ED%99%8D+%FF&__proto__=x&state=0" !! "state"
  = Some "0".
Proof.
  refine (proj1 (proj2 (parseResponse_last_wins
                          "state=1&memo=%ED%99%8D+%FF&__proto__=x&state=0"))
            [("state", "1"); ("memo", _); ("__proto__", "x")] []
            "state" "0" _ _ _).
  - vm_compute. reflexivity.
  - apply not_elem_of_nil.
  - discriminate.
Defined.

Lemma typed_keys_differ (f1 f2 : PaymentFeedback) m1 m2 n1 n2 :
  prop f1 "mul_no" = JsString m1 -> prop f2 "mul_no" = JsString m2 ->
  occurs "_" m1 = false -> occurs "_" m2 = false ->
  prop f1 "pay_state" = JsNumber n1 -> prop f2 "pay_state" = JsNumber n2 ->
  n1 ≠ n2 ->
  generateFeedbackKey f1 ≠ generateFeedbackKey f2.
Proof.
  intros Hm1 Hm2 Hu1 Hu2 Hn1 Hn2 Hdiff Hkey.
  destruct (generateFeedbackKey_typed f1 m1 n1 Hm1 Hn1) as [r1 Hk1].
  destruct (generateFeedbackKey_typed f2 m2 n2 Hm2 Hn2) as [r2 Hk2].
  rewrite Hk1, Hk2 in Hkey.
  apply first_separator in Hkey as [_ Hrest]; [| done | done].
  apply first_separator in Hrest as [Hn _];
    [| apply occurs_underscore_pretty | apply occurs_underscore_pretty].
  by apply (inj pretty) in Hn.
Qed.

(** X21: a state change is not a duplicate.  For feedbacks whose
    [mul_no] is a string without underscore and whose [pay_state] is an
    integer, processing the feedback of one pay state does not make the
    feedback of another pay state a duplicate: the report of the request
    never hides the report of the completion, for the same payment or for
    another. *)
Theorem state_change_not_duplicate {W : Type} (handlers : @WebhookHandler W)
    (h : @Heap W) (feedback next : PaymentFeedback) m1 m2 n1 n2 :
  prop feedback "mul_no" = JsString m1 -> prop next "mul_no" = JsString m2 ->
  occurs "_" m1 = false -> occurs "_" m2 = false ->
  prop feedback "pay_state" = JsNumber n1 ->
  prop next "pay_state" = JsNumber n2 ->
  n1 ≠ n2 ->
  isDuplicate (this h) next = false ->
  isDuplicate (this (process feedback handlers h).1) next = false.
Proof.
  intros Hm1 Hm2 Hu1 Hu2 Hn1 Hn2 Hdiff Hfresh.
  assert (Hkey : generateFeedbackKey next ≠ generateFeedbackKey feedback).
  { apply (typed_keys_differ next feedback m2 m1 n2 n1); auto. }
  assert (Hmark : isDuplicate (markAsProcessed (this h) feedback) next
                  = isDuplicate (this h) next).
  { unfold isDuplicate, markAsProcessed. simpl.
    apply bool_decide_ext. rewrite elem_of_union, elem_of_singleton.
    split; [intros [? | ?]; [contradiction | done] | by right]. }
  destruct (validate (this h) feedback) eqn:Hv.
  - destruct (isDuplicate (this h) feedback) eqn:Hd.
    + by rewrite (process_duplicate _ _ _ Hv Hd).
    + rewrite (process_fresh _ _ _ Hv Hd).
      destruct (handler_for handlers (getEventType feedback))
        as [[cb callback]|]; [| simpl; congruence]. simpl.
      destruct (callback feedback (world h)).2; [simpl; congruence |].
      by rewrite (proj1 (process_catch_frame _ _ _ _)).
  - rewrite (process_invalid _ _ _ Hv).
    by rewrite (proj1 (process_catch_frame _ _ _ _)).
Qed.

(** ** Instances of the properties above *)

Lemma process_invalid_credentials_witness :
  this (process forged_feedback failing_log_handlers start).1 = this start.
Proof.
  refine (proj1 (process_invalid_credentials forged_feedback
                   failing_log_handlers start _)).
  vm_compute. discriminate.
Defined.

Lemma process_contains_errors_witness :
  ∃ result,
    (process forged_feedback no_handlers start).2 = Fulfilled result.
Proof.
  refine (proj1 (process_contains_errors forged_feedback no_handlers start) _).
  intros callback error feedback w Hreg. discriminate Hreg.
Defined.

Lemma webhookHandler_responses_witness :
  webhookHandler crediting_handlers
    {| method := "GET"; content_type := None; text := Fulfilled "" |} start
  = (start, Fulfilled {| body := "Method not allowed"; status := 405;
                         response_content_type := Some "text/plain;charset=UTF-8" |}).
Proof.
  refine (proj1 (webhookHandler_responses crediting_handlers
    {| method := "GET"; content_type := None; text := Fulfilled "" |}
    start) _).
  discriminate.
Defined.

Lemma process_frame_other_keys_witness :
  isDuplicate
    (this (process requested_feedback crediting_handlers start).1)
    completed_feedback
  = isDuplicate (this start) completed_feedback.
Proof.
  apply (process_frame_other_keys requested_feedback crediting_handlers
           start completed_feedback).
  vm_compute. discriminate.
Defined.

Lemma process_unhandled_consumed_witness :
  (process unknown_feedback crediting_handlers start).2 = Fulfilled SUCCESS.
Proof.
  refine (proj1 (process_unhandled_consumed unknown_feedback
                   crediting_handlers start _ _ _)); reflexivity.
Defined.

Lemma clear_then_redeliver_witness :
  isDuplicate
    (this (after_call ClearProcessedKeys
             (process completed_feedback crediting_handlers start).1))
    completed_feedback = false.
Proof.
  refine (proj1 (clear_then_redeliver completed_feedback crediting_handlers
                   (process completed_feedback crediting_handlers start).1
                   OnPaymentCompleted credit _ _)); reflexivity.
Defined.

Lemma state_change_not_duplicate_witness :
  isDuplicate
    (this (process requested_feedback crediting_handlers start).1)
    completed_feedback = false.
Proof.
  apply (state_change_not_duplicate crediting_handlers start
           requested_feedback completed_feedback "12345" "12345" 1 4);
    try reflexivity.
  lia.
Defined.


Lemma hook_registerBill_contract_witness :
  Hooks.registerBill map_to_list accepting billing_options
    (<["cardNo" := JsString "4111111111111111"]> ∅) (idle, 0%nat)
  = ((idle, 0%nat), Fulfilled None).
Proof.
  refine (proj1 (hook_registerBill_contract map_to_list accepting
    billing_options (<["cardNo" := JsString "4111111111111111"]> ∅)
    idle 0%nat (<["state" := "1"]> ∅) _) _).
  - reflexivity.
  - left. reflexivity.
Defined.

Lemma hook_requestPayment_contract_witness :
  (Hooks.requestPayment map_to_list {| Hooks.payapp_onError := None |}
     (<["price" := JsNumber 9900]> ∅)
     ((sdk_pending, {| PayApp := Some [] |}), 0%nat)).2
  = Fulfilled tt.
Proof.
  refine (proj2 (proj2 (proj1
    (hook_requestPayment_contract map_to_list
       {| Hooks.payapp_onError := None |}
       (<["price" := JsNumber 9900]> ∅) sdk_pending
       {| PayApp := Some [] |} 0%nat) _)) _); reflexivity.
Defined.
